(** * The metrics controller of discord-boilerplate

    A shallow embedding of [src/structures/Metrics.ts] (the [Metrics] class)
    and of the two [ClientManager] members it relies on
    ([topggRequest] and the error callback that calls
    [incrementCommandError]).

    Conventions of the embedding:
    - a JavaScript [number] that takes part in floating-point arithmetic
      (the CPU figure) is an IEEE 754 binary64 value, [spec_float] with
      precision 53 and maximal exponent 1024;
    - the two tallies are plain objects created by [{}]: their own
      properties, in creation order, with the members they inherit from
      [Object.prototype]; a counter is an integer, exact as long as it stays
      below 2^53, or NaN;
    - an [async] method is split at its [await]s: the synchronous prefix is
      a computation in the monad [Eff], the rest is resumed by the event
      that settles the awaited promise;
    - the Node.js event loop is a step function over [System]; timers,
      promise settlements and gateway dispatches are its events;
    - a thrown or rejected value is an [Error], kept as the text that
      [console.error] prints for it. *)

From Stdlib Require Import ZArith QArith Qabs.
From Stdlib Require Import Floats.SpecFloat.
From stdpp Require Import gmap strings list fin_maps pretty.

Local Open Scope Z_scope.
Local Open Scope string_scope.

(** ** JavaScript numbers *)

Definition number : Type := spec_float.

Definition num_of_Z (z : Z) : number := binary_normalize 53 1024 z 0 false.
Definition num_add : number -> number -> number := SFadd 53 1024.
Definition num_sub : number -> number -> number := SFsub 53 1024.
Definition num_mul : number -> number -> number := SFmul 53 1024.
Definition num_div : number -> number -> number := SFdiv 53 1024.

(** The exact rational denoted by a finite binary64 value. *)
Definition num_to_Q (x : number) : option Q :=
  match x with
  | S754_zero _ => Some 0%Q
  | S754_finite s m e =>
      let v := (inject_Z (Zpos m) * Qpower 2 e)%Q in
      Some (if s then Qopp v else v)
  | _ => None
  end.

(** ** Plain objects used as tallies *)

(** The value of a counter: an integer count or NaN. *)
Inductive Count := Num (n : nat) | NaN.

#[global] Instance Count_eq_dec : EqDecision Count.
Proof. solve_decision. Defined.

(** The own enumerable properties of an object, in creation order. *)
Abbreviation Tally := (list (string * Count)).

(** The own property [name], if there is one. *)
Fixpoint own (name : string) (tally : Tally) : option Count :=
  match tally with
  | [] => None
  | (key, value) :: rest =>
      if decide (key = name) then Some value else own name rest
  end.

(** [tally[name] = value] for a name other than [__proto__]: an own property
    keeps its place, a new one is created last. *)
Fixpoint assign (name : string) (value : Count) (tally : Tally) : Tally :=
  match tally with
  | [] => [(name, value)]
  | (key, old) :: rest =>
      if decide (key = name) then (key, value) :: rest
      else (key, old) :: assign name value rest
  end.

(** The members of [Object.prototype], which every [{}] inherits. *)
Definition objectPrototype : list string :=
  [ "constructor"; "__defineGetter__"; "__defineSetter__"; "hasOwnProperty";
    "__lookupGetter__"; "__lookupSetter__"; "isPrototypeOf";
    "propertyIsEnumerable"; "toString"; "valueOf"; "__proto__";
    "toLocaleString" ].

Definition inherited (name : string) : bool :=
  bool_decide (name ∈ objectPrototype).

(** The value of a decimal digit. *)
Definition digit (a : Ascii.ascii) : option N :=
  let code := Ascii.N_of_ascii a in
  if ((48 <=? code) && (code <=? 57))%N then Some (code - 48)%N else None.

Fixpoint decimal (s : string) (acc : N) : option N :=
  match s with
  | EmptyString => Some acc
  | String a rest =>
      match digit a with
      | Some d => decimal rest (10 * acc + d)%N
      | None => None
      end
  end.

(** The array index a property key spells, if any: the canonical decimal
    form of an integer below 2^32 - 1. *)
Definition arrayIndex (key : string) : option N :=
  match key with
  | EmptyString => None
  | String a rest =>
      if (Ascii.N_of_ascii a =? 48)%N && negb (String.eqb rest EmptyString)
      then None
      else match decimal key 0 with
           | Some n => if (n <? 4294967295)%N then Some n else None
           | None => None
           end
  end.

Fixpoint insertIndexed (n : N) (entry : string * Count)
    (sorted : list (N * (string * Count))) : list (N * (string * Count)) :=
  match sorted with
  | [] => [(n, entry)]
  | (m, other) :: rest =>
      if (n <? m)%N then (n, entry) :: sorted
      else (m, other) :: insertIndexed n entry rest
  end.

(** [Object.entries(tally)]: the array indices in ascending order, then the
    other keys in creation order. *)
Definition entries (tally : Tally) : list (string * Count) :=
  (map snd
     (foldr (fun entry acc =>
               match arrayIndex entry.1 with
               | Some n => insertIndexed n entry acc
               | None => acc
               end) [] tally)
   ++ filter (fun entry => arrayIndex entry.1 = None) tally)%list.

(** Truthiness of the values the constructor tests. *)
Definition truthy_interval (ms : Z) : bool := negb (ms =? 0)%Z.

Definition truthy_string (s : option string) : bool :=
  match s with
  | Some str => negb (String.length str =? 0)%nat
  | None => false
  end.

(** [a ?? b] *)
Definition nullish {A : Type} (a : option A) (b : A) : A :=
  match a with Some x => x | None => b end.

(** ** Options *)

Record InfluxDBOptions := {
  influx_application : string;
  influx_bucket : string;
  influx_extraTags : option (gmap string string);
  influx_org : string;
  influx_reportInterval : option Z;
  influx_token : string;
  influx_url : string
}.

Record TopggOptions := {
  topgg_reportInterval : option Z;
  topgg_postShards : option bool;
  topgg_token : option string
}.

Record MetricsOptions := {
  influxDB : option InfluxDBOptions;
  topgg : option TopggOptions
}.

(** [this.options], every optional member resolved. *)
Record InfluxDBResolved := {
  application : string;
  bucket : string;
  extraTags : gmap string string;
  org : string;
  influxReportInterval : Z;
  influxToken : string;
  url : string
}.

Record TopggResolved := {
  topggReportInterval : Z;
  postShards : bool;
  topggToken : option string
}.

Record ResolvedOptions := {
  optInfluxDB : option InfluxDBResolved;
  optTopgg : option TopggResolved
}.

(** ** Collaborators *)

Record Shard := {
  shardId : Z;
  shardGuildsSize : Z;
  shardPingMs : Z;
  shardStateName : string   (* GatewayShardState[shard.state] *)
}.

(** What the controller reads from [this.client]. *)
Record Client := {
  commandIds : gset string;             (* commandHandler.commands (keys) *)
  responseCodeTally : Tally;            (* rest.responseCodeTally *)
  shards : list Shard;                  (* gateway.shards *)
  guildCount : Z;                       (* gateway.guildCount *)
  averagePing : number                  (* gateway.averagePing *)
}.

(** [InteractionType] of discord-api-types. *)
Inductive InteractionType :=
  | Ping
  | ApplicationCommand
  | MessageComponent
  | ApplicationCommandAutocomplete
  | ModalSubmit.

#[global] Instance InteractionType_eq_dec : EqDecision InteractionType.
Proof. solve_decision. Defined.

(** The payload [d] of an [INTERACTION_CREATE] dispatch. *)
Record Interaction := {
  type : InteractionType;
  dataId : string;
  dataName : string
}.

(** ** CPU samples *)

Record CpuUsage := { user : number; system : number }.
Record CPUMetrics := { usage : CpuUsage; time : number }.

(** What one report cycle reads from [process] and what the InfluxDB client
    library answers while the points are built. *)
Record Reading := {
  cpuUsage : CpuUsage;        (* process.cpuUsage() *)
  now : number;               (* Date.now() *)
  rss : Z;                    (* process.memoryUsage.rss() *)
  pointError : option string  (* exception raised by a Point field method *)
}.

(** ** InfluxDB points *)

Inductive Field :=
  | floatField (name : string) (value : number)
  | intField (name : string) (value : Z)
  | intFieldNaN (name : string)     (* intField(name, NaN) *)
  | stringField (name : string) (value : string).

Record Point := {
  measurement : string;
  tags : list (string * string);
  fields : list Field
}.

Record WriteApi := {
  writeOrg : string;
  writeBucket : string;
  defaultTags : gmap string string
}.

Record TopggRequest := {
  route : string;
  server_count : Z;
  shard_count : option Z;
  authHeader : option string
}.

(** ** The controller and the runtime around it *)

Inductive Sink := InfluxDB | Topgg.

#[global] Instance Sink_eq_dec : EqDecision Sink.
Proof. solve_decision. Defined.

(** A timer created by [setInterval(...).unref()], with its delay. *)
Record Timer := {
  timerSink : Sink;
  timerInterval : Z;
  timerUnref : bool
}.

(** Who called the report method: the timer callback, which attaches
    [.catch], or some other caller, who receives the promise. *)
Inductive Origin := Scheduled | Manual.

#[global] Instance Origin_eq_dec : EqDecision Origin.
Proof. solve_decision. Defined.

(** The [await] at which an unfinished report cycle is suspended. *)
Inductive Phase :=
  | AwaitCallback (w : WriteApi) (built : list Point)
      (* await this._influxDBCallback?.() *)
  | AwaitClose (w : WriteApi) (points : list Point)
      (* await writeAPI.close() *)
  | AwaitTopgg (req : TopggRequest).
      (* await this.client.topggRequest(...) *)

Record Cycle := {
  cycleSink : Sink;
  cycleOrigin : Origin;
  cyclePhase : Phase
}.

Record LogEntry := {
  logMessage : string;
  logLevel : string;
  logSystem : string
}.

(** The fields of the [Metrics] object. *)
Record Metrics := {
  options : ResolvedOptions;
  influxClient : option (string * string);   (* token, url *)
  _commands : Tally;
  _commandErrors : Tally;
  _influxDBCallback : option string;         (* the registered callback *)
  _lastCPUMetrics : CPUMetrics
}.

(** Everything outside the object that its methods read or change. *)
Record World := {
  client : Client;
  TOPGG_TOKEN : option string;         (* process.env.TOPGG_TOKEN *)
  timers : list Timer;                 (* armed intervals *)
  listeners : list string;             (* gateway.on registrations *)
  inflight : list Cycle;               (* suspended report cycles *)
  logged : list LogEntry;              (* client.logger.log *)
  console : list string;               (* console.error *)
  propagated : list (Sink * string);   (* rejections handed to a caller *)
  written : list (WriteApi * list Point);  (* writeAPI.writePoints *)
  requested : list TopggRequest        (* rest.make through topggRequest *)
}.

Record System := { this : Metrics; world : World }.

(** Field updates. *)
Definition set_options (o : ResolvedOptions) (m : Metrics) : Metrics :=
  {| options := o; influxClient := influxClient m; _commands := _commands m;
     _commandErrors := _commandErrors m;
     _influxDBCallback := _influxDBCallback m;
     _lastCPUMetrics := _lastCPUMetrics m |}.

Definition set_influxClient (c : option (string * string)) (m : Metrics)
  : Metrics :=
  {| options := options m; influxClient := c; _commands := _commands m;
     _commandErrors := _commandErrors m;
     _influxDBCallback := _influxDBCallback m;
     _lastCPUMetrics := _lastCPUMetrics m |}.

Definition set_commands (t : Tally) (m : Metrics) : Metrics :=
  {| options := options m; influxClient := influxClient m; _commands := t;
     _commandErrors := _commandErrors m;
     _influxDBCallback := _influxDBCallback m;
     _lastCPUMetrics := _lastCPUMetrics m |}.

Definition set_commandErrors (t : Tally) (m : Metrics) : Metrics :=
  {| options := options m; influxClient := influxClient m;
     _commands := _commands m; _commandErrors := t;
     _influxDBCallback := _influxDBCallback m;
     _lastCPUMetrics := _lastCPUMetrics m |}.

Definition set_influxDBCallback (cb : option string) (m : Metrics) : Metrics :=
  {| options := options m; influxClient := influxClient m;
     _commands := _commands m; _commandErrors := _commandErrors m;
     _influxDBCallback := cb;
     _lastCPUMetrics := _lastCPUMetrics m |}.

Definition set_lastCPUMetrics (c : CPUMetrics) (m : Metrics) : Metrics :=
  {| options := options m; influxClient := influxClient m;
     _commands := _commands m; _commandErrors := _commandErrors m;
     _influxDBCallback := _influxDBCallback m;
     _lastCPUMetrics := c |}.

Definition set_client (c : Client) (w : World) : World :=
  {| client := c; TOPGG_TOKEN := TOPGG_TOKEN w; timers := timers w;
     listeners := listeners w; inflight := inflight w; logged := logged w;
     console := console w; propagated := propagated w;
     written := written w; requested := requested w |}.

Definition set_timers (l : list Timer) (w : World) : World :=
  {| client := client w; TOPGG_TOKEN := TOPGG_TOKEN w; timers := l;
     listeners := listeners w; inflight := inflight w; logged := logged w;
     console := console w; propagated := propagated w;
     written := written w; requested := requested w |}.

Definition set_listeners (l : list string) (w : World) : World :=
  {| client := client w; TOPGG_TOKEN := TOPGG_TOKEN w; timers := timers w;
     listeners := l; inflight := inflight w; logged := logged w;
     console := console w; propagated := propagated w;
     written := written w; requested := requested w |}.

Definition set_inflight (l : list Cycle) (w : World) : World :=
  {| client := client w; TOPGG_TOKEN := TOPGG_TOKEN w; timers := timers w;
     listeners := listeners w; inflight := l; logged := logged w;
     console := console w; propagated := propagated w;
     written := written w; requested := requested w |}.

Definition set_logged (l : list LogEntry) (w : World) : World :=
  {| client := client w; TOPGG_TOKEN := TOPGG_TOKEN w; timers := timers w;
     listeners := listeners w; inflight := inflight w; logged := l;
     console := console w; propagated := propagated w;
     written := written w; requested := requested w |}.

Definition set_console (l : list string) (w : World) : World :=
  {| client := client w; TOPGG_TOKEN := TOPGG_TOKEN w; timers := timers w;
     listeners := listeners w; inflight := inflight w; logged := logged w;
     console := l; propagated := propagated w;
     written := written w; requested := requested w |}.

Definition set_propagated (l : list (Sink * string)) (w : World) : World :=
  {| client := client w; TOPGG_TOKEN := TOPGG_TOKEN w; timers := timers w;
     listeners := listeners w; inflight := inflight w; logged := logged w;
     console := console w; propagated := l;
     written := written w; requested := requested w |}.

Definition set_written (l : list (WriteApi * list Point)) (w : World)
  : World :=
  {| client := client w; TOPGG_TOKEN := TOPGG_TOKEN w; timers := timers w;
     listeners := listeners w; inflight := inflight w; logged := logged w;
     console := console w; propagated := propagated w;
     written := l; requested := requested w |}.

Definition set_requested (l : list TopggRequest) (w : World) : World :=
  {| client := client w; TOPGG_TOKEN := TOPGG_TOKEN w; timers := timers w;
     listeners := listeners w; inflight := inflight w; logged := logged w;
     console := console w; propagated := propagated w;
     written := written w; requested := l |}.

Definition on_this (f : Metrics -> Metrics) (s : System) : System :=
  {| this := f (this s); world := world s |}.

Definition on_world (f : World -> World) (s : System) : System :=
  {| this := this s; world := f (world s) |}.

(** ** Statements that change the state and may throw *)

Inductive Completion (A : Type) :=
  | Normal (a : A)
  | Throw (message : string).
Arguments Normal {A} a.
Arguments Throw {A} message.

Definition Eff (A : Type) : Type := System -> System * Completion A.

Definition ret {A : Type} (a : A) : Eff A := fun s => (s, Normal a).

Definition bind {A B : Type} (c : Eff A) (k : A -> Eff B) : Eff B :=
  fun s =>
    match c s with
    | (s', Normal a) => k a s'
    | (s', Throw e) => (s', Throw e)
    end.

Definition throw {A : Type} (message : string) : Eff A :=
  fun s => (s, Throw message).

Definition get : Eff System := fun s => (s, Normal s).

Definition update (f : System -> System) : Eff unit :=
  fun s => (f s, Normal tt).

Definition when (b : bool) (c : Eff unit) : Eff unit :=
  if b then c else ret tt.

#[global] Instance Eff_ret : MRet Eff := @ret.
#[global] Instance Eff_bind : MBind Eff := fun A B k c => bind c k.

(** The delay Node.js gives a timer, for an interval that is a whole number
    of milliseconds: an argument below 1 or above 2^31 - 1 is replaced
    by 1. *)
Definition timerDelay (ms : Z) : Z :=
  if (1 <=? ms)%Z && (ms <=? 2147483647)%Z then ms else 1.

(** The effects the methods use. *)
Definition setInterval (k : Sink) (ms : Z) : Eff unit :=
  update (on_world (fun w =>
    set_timers (timers w ++ [ {| timerSink := k;
                                 timerInterval := timerDelay ms;
                                 timerUnref := true |} ]) w)).

Definition gateway_on (event : string) : Eff unit :=
  update (on_world (fun w => set_listeners (listeners w ++ [event]) w)).

Definition logger_log (message level : string) : Eff unit :=
  update (on_world (fun w =>
    set_logged (logged w ++ [ {| logMessage := message; logLevel := level;
                                 logSystem := "Metrics" |} ]) w)).

Definition console_error (stack : string) : Eff unit :=
  update (on_world (fun w => set_console (console w ++ [stack]) w)).

(** ** The constructor *)

Definition resolveOptions (env_token : option string) (o : MetricsOptions)
  : ResolvedOptions :=
  {| optInfluxDB :=
       match influxDB o with
       | Some i =>
           Some {| application := influx_application i;
                   bucket := influx_bucket i;
                   extraTags := nullish (influx_extraTags i) ∅;
                   org := influx_org i;
                   influxReportInterval := nullish (influx_reportInterval i) 0;
                   influxToken := influx_token i;
                   url := influx_url i |}
       | None => None
       end;
     optTopgg :=
       match topgg o with
       | Some t =>
           Some {| topggReportInterval := nullish (topgg_reportInterval t) 0;
                   postShards := nullish (topgg_postShards t) false;
                   topggToken :=
                     match topgg_token t with
                     | Some tok => Some tok
                     | None => env_token
                     end |}
       | None => None
       end |}.

Definition constructor (o : MetricsOptions) : Eff unit :=
  s ← get;
  let opts := resolveOptions (TOPGG_TOKEN (world s)) o in
  update (on_this (set_options opts));;
  match optInfluxDB opts with
  | Some i =>
      update (on_this (set_influxClient (Some (influxToken i, url i))));;
      when (truthy_interval (influxReportInterval i))
           (setInterval InfluxDB (influxReportInterval i))
  | None => ret tt
  end;;
  match optTopgg opts with
  | Some t =>
      (if negb (truthy_string (topggToken t))
       then throw "Top.gg API token is undefined"
       else ret tt);;
      when (truthy_interval (topggReportInterval t))
           (setInterval Topgg (topggReportInterval t))
  | None => ret tt
  end;;
  gateway_on "INTERACTION_CREATE";;
  logger_log "Initialized metrics controller" "DEBUG".

(** The object before the constructor body runs (the field initialisers),
    in a process whose environment, client and clock are given. *)
Definition fresh (c : Client) (env_token : option string) (t0 : CPUMetrics)
  : System :=
  {| this := {| options := {| optInfluxDB := None; optTopgg := None |};
                influxClient := None;
                _commands := [];
                _commandErrors := [];
                _influxDBCallback := None;
                _lastCPUMetrics := t0 |};
     world := {| client := c; TOPGG_TOKEN := env_token; timers := [];
                 listeners := []; inflight := []; logged := [];
                 console := []; propagated := []; written := [];
                 requested := [] |} |}.

(** [new Metrics(client, options)] *)
Definition new_Metrics (c : Client) (env_token : option string)
    (t0 : CPUMetrics) (o : MetricsOptions) : System * Completion unit :=
  constructor o (fresh c env_token t0).

(** ** The tallies *)

(** [tally[name] ??= 0; tally[name]++;]

    [??=] assigns only when the property reads as [undefined]: an own
    property never does, and neither does a name inherited from
    [Object.prototype], which reads as a function or, for [__proto__], as
    the prototype.  [++] converts what it reads to a number, NaN for a
    function, an object or [undefined], and assigns the successor; the
    assignment creates an own property, except for [__proto__], whose
    setter ignores a number. *)
Definition increment (name : string) (tally : Tally) : Tally :=
  let tally' :=
    match own name tally with
    | Some _ => tally
    | None => if inherited name then tally else assign name (Num 0) tally
    end in
  match own name tally' with
  | Some (Num count) => assign name (Num (S count)) tally'
  | Some NaN => assign name NaN tally'
  | None =>
      if decide (name = "__proto__") then tally' else assign name NaN tally'
  end.

Definition incrementCommandError (command : string) : Eff unit :=
  update (on_this (fun m =>
    set_commandErrors (increment command (_commandErrors m)) m)).

(** The listener registered for [INTERACTION_CREATE]. *)
Definition onInteractionCreate (d : Interaction) : Eff unit :=
  s ← get;
  if bool_decide (type d = ApplicationCommand)
     && bool_decide (dataId d ∈ commandIds (client (world s)))
  then update (on_this (fun m =>
         set_commands (increment (dataName d) (_commands m)) m))
  else ret tt.

(** The error callback that [ClientManager.setErrorCallbacks] installs, for
    a chat or context menu command context:
    [this.metrics.incrementCommandError(ctx.command?.name ?? `Unknown`)]. *)
Definition onCommandError (commandName : option string) : Eff unit :=
  incrementCommandError (nullish commandName "Unknown").

Definition setInfluxDBCallback (callback : option string) : Eff unit :=
  update (on_this (set_influxDBCallback callback)).

(** ** Reporting to InfluxDB *)

Definition cpuPercent (last : CPUMetrics) (current : CPUMetrics) : number :=
  num_div
    (num_mul (num_of_Z 100)
       (num_add (num_sub (system (usage current)) (system (usage last)))
                (num_sub (user (usage current)) (user (usage last)))))
    (num_mul (num_sub (time current) (time last)) (num_of_Z 1000)).

Record ShardStats := {
  id : Z;
  guilds : Z;
  ping : Z;
  state : string
}.

Record Stats := {
  commands : Tally;
  commandErrors : Tally;
  cpu : number;
  memory : Z;
  rest : Tally;
  shardCount : Z;
  shardGuilds : Z;
  shardPing : number;
  shardStats : list ShardStats
}.

Definition collectStats (s : System) (r : Reading) : Stats :=
  let c := client (world s) in
  {| commands := _commands (this s);
     commandErrors := _commandErrors (this s);
     cpu := cpuPercent (_lastCPUMetrics (this s))
              {| usage := cpuUsage r; time := now r |};
     memory := rss r;
     rest := responseCodeTally c;
     shardCount := Z.of_nat (length (shards c));
     shardGuilds := guildCount c;
     shardPing := averagePing c;
     shardStats :=
       map (fun shard => {| id := shardId shard;
                            guilds := shardGuildsSize shard;
                            ping := shardPingMs shard;
                            state := shardStateName shard |})
           (shards c) |}.

Definition processPoint (stats : Stats) : Point :=
  {| measurement := "process";
     tags := [];
     fields := [ floatField "cpu" (cpu stats);
                 intField "memory" (memory stats);
                 intField "shards" (shardCount stats);
                 intField "guilds" (shardGuilds stats);
                 floatField "ping" (shardPing stats) ] |}.

(** [Object.entries(tally)] followed by one [Point] per entry. *)
Definition tallyPoints (meas tag : string) (tally : Tally) : list Point :=
  map (fun entry : string * Count =>
         {| measurement := meas;
            tags := [(tag, entry.1)];
            fields := [ match entry.2 with
                        | Num count => intField "count" (Z.of_nat count)
                        | NaN => intFieldNaN "count"
                        end ] |})
      (entries tally).

Definition commandPoints (stats : Stats) : list Point :=
  tallyPoints "command" "name" (commands stats).

Definition commandErrorPoints (stats : Stats) : list Point :=
  tallyPoints "commandError" "name" (commands stats).

Definition restPoints (stats : Stats) : list Point :=
  tallyPoints "rest" "code" (rest stats).

Definition shardPoints (stats : Stats) : list Point :=
  map (fun shard =>
         {| measurement := "shard";
            tags := [("id", pretty (id shard))];
            fields := [ intField "guilds" (guilds shard);
                        intField "ping" (ping shard);
                        stringField "state" (state shard) ] |})
      (shardStats stats).

Definition builtPoints (stats : Stats) : list Point :=
  processPoint stats :: commandPoints stats ++ commandErrorPoints stats
    ++ restPoints stats ++ shardPoints stats.

(** [influxClient.getWriteApi(org, bucket)] and [writeAPI.useDefaultTags]. *)
Definition getWriteApi (org bucket : string) : WriteApi :=
  {| writeOrg := org; writeBucket := bucket; defaultTags := ∅ |}.

Definition useDefaultTags (tags : gmap string string) (w : WriteApi)
  : WriteApi :=
  {| writeOrg := writeOrg w; writeBucket := writeBucket w;
     defaultTags := tags |}.

Definition writePoints (w : WriteApi) (points : list Point) : Eff unit :=
  update (on_world (fun wd => set_written (written wd ++ [(w, points)]) wd)).

(** [reportInfluxDBMetrics] up to its first suspension.  Without a callback
    [await this._influxDBCallback?.()] awaits [undefined] and the method
    resumes before any other event is handled, so it runs on to
    [await writeAPI.close()]. *)
Definition reportInfluxDBMetrics (r : Reading) : Eff Phase :=
  s ← get;
  match optInfluxDB (options (this s)), influxClient (this s) with
  | Some i, Some _ =>
      let usage := cpuUsage r in
      let time := now r in
      let stats := collectStats s r in
      update (on_this (set_lastCPUMetrics {| usage := usage; time := time |}));;
      let writeAPI :=
        useDefaultTags (extraTags i ∪ {[ "application" := application i ]})
          (getWriteApi (org i) (bucket i)) in
      match pointError r with
      | Some e => throw e
      | None => ret tt
      end;;
      let built := builtPoints stats in
      match _influxDBCallback (this s) with
      | Some _ => ret (AwaitCallback writeAPI built)
      | None =>
          writePoints writeAPI built;;
          ret (AwaitClose writeAPI built)
      end
  | _, _ => throw "Cannot post to InfluxDB; options not defined"
  end.

(** ** Reporting to Top.gg *)

(** [ClientManager.topggRequest], up to the call of [rest.make]. *)
Definition topggRequest (path : string) (servers : Z) (shardsField : option Z)
    (token : option string) : Eff TopggRequest :=
  s ← get;
  let env_token := TOPGG_TOKEN (world s) in
  if negb (truthy_string token) && negb (truthy_string env_token)
  then throw "Top.gg API token is undefined"
  else
    let req := {| route := path; server_count := servers;
                  shard_count := shardsField;
                  authHeader := match token with
                                | Some t => Some t
                                | None => env_token
                                end |} in
    update (on_world (fun w => set_requested (requested w ++ [req]) w));;
    ret req.

(** [reportTopggMetrics] up to its suspension. *)
Definition reportTopggMetrics : Eff Phase :=
  s ← get;
  match optTopgg (options (this s)) with
  | None => throw "Cannot post to Top.gg; options not defined"
  | Some t =>
      let c := client (world s) in
      req ← topggRequest "/bots/stats" (guildCount c)
              (if postShards t then Some (Z.of_nat (length (shards c)))
               else None)
              (topggToken t);
      ret (AwaitTopgg req)
  end.

(** ** Resuming a suspended cycle *)

Inductive Settlement :=
  | Resolved (value : option (list Point))
  | Rejected (reason : string).

Definition resume (ph : Phase) (v : Settlement) : Eff (option Phase) :=
  match v with
  | Rejected reason => throw reason
  | Resolved value =>
      match ph with
      | AwaitCallback w built =>
          let points := (built ++ nullish value [])%list in
          writePoints w points;;
          ret (Some (AwaitClose w points))
      | AwaitClose w points =>
          logger_log ("Wrote " ++ pretty (length points)
                        ++ " points to InfluxDB") "DEBUG";;
          ret None
      | AwaitTopgg _ =>
          logger_log "Posted metrics to Top.gg" "DEBUG";;
          ret None
      end
  end.

(** ** The build under [dist/]

    [dist/structures/Metrics.js] is the build of an earlier revision: it has
    no tallies, its constructor arms the two timers exactly as above, and
    its [reportInfluxDBMetrics] awaits the gateway's ping queries while it
    collects the statistics.  The method is embedded up to that first
    suspension, [await this.client.gateway.getAveragePing()]. *)
Module Dist.

(** The members of [stats] evaluated before the first [await]. *)
Record Collected := {
  cpu : number;
  memory : Z;
  shardCount : Z;
  shardGuilds : Z
}.

Definition reportInfluxDBMetrics (r : Reading) : Eff Collected :=
  s ← get;
  match optInfluxDB (options (this s)), influxClient (this s) with
  | Some i, Some _ =>
      let usage := cpuUsage r in
      let time := now r in
      let cpu :=
        cpuPercent (_lastCPUMetrics (this s))
          {| usage := usage; time := time |} in
      update (on_this
                (set_lastCPUMetrics {| usage := usage; time := time |}));;
      let c := client (world s) in
      ret {| cpu := cpu;
             memory := rss r;
             shardCount := Z.of_nat (length (shards c));
             shardGuilds := guildCount c |}
  | _, _ => throw "Cannot post to InfluxDB; options not defined"
  end.

End Dist.

(** ** The event loop *)

(** What the runtime can deliver to the controller. *)
Inductive Event :=
  | Tick (k : Sink) (r : Reading)
      (* an interval armed for sink [k] fires *)
  | Call (k : Sink) (r : Reading)
      (* some caller invokes the report method of sink [k] *)
  | Settle (i : nat) (v : Settlement)
      (* the promise awaited by the [i]-th suspended cycle settles *)
  | Dispatch (event : string) (d : Interaction)
      (* the gateway emits [event] with payload [d] *)
  | CommandError (commandName : option string)
      (* the command handler reports an error of a command context *)
  | SetCallback (callback : option string)
      (* setInfluxDBCallback *)
  | ClientChange (c : Client).
      (* the collaborators' state changes *)

Definition report (k : Sink) (r : Reading) : Eff Phase :=
  match k with
  | InfluxDB => reportInfluxDBMetrics r
  | Topgg => reportTopggMetrics
  end.

(** A rejected report promise: the timer callback's [.catch] prints the
    error; any other caller receives the rejection. *)
Definition rejected (k : Sink) (o : Origin) (reason : string) (s : System)
  : System :=
  match o with
  | Scheduled => (console_error reason s).1
  | Manual =>
      on_world (fun w => set_propagated (propagated w ++ [(k, reason)]) w) s
  end.

Definition launch (k : Sink) (o : Origin) (r : Reading) (s : System)
  : System :=
  match report k r s with
  | (s', Normal ph) =>
      on_world (fun w =>
        set_inflight (inflight w ++ [ {| cycleSink := k; cycleOrigin := o;
                                         cyclePhase := ph |} ]) w) s'
  | (s', Throw reason) => rejected k o reason s'
  end.

Definition armed (k : Sink) (s : System) : bool :=
  existsb (fun t => bool_decide (timerSink t = k)) (timers (world s)).

Definition listening (event : string) (s : System) : bool :=
  bool_decide (event ∈ listeners (world s)).

Definition settle (i : nat) (v : Settlement) (s : System) : option System :=
  match inflight (world s) !! i with
  | None => None
  | Some c =>
      match resume (cyclePhase c) v s with
      | (s', Normal (Some ph)) =>
          Some (on_world (fun w =>
            set_inflight (<[i := {| cycleSink := cycleSink c;
                                    cycleOrigin := cycleOrigin c;
                                    cyclePhase := ph |}]> (inflight w)) w) s')
      | (s', Normal None) =>
          Some (on_world (fun w =>
            set_inflight (delete i (inflight w)) w) s')
      | (s', Throw reason) =>
          Some (rejected (cycleSink c) (cycleOrigin c) reason
                  (on_world (fun w =>
                     set_inflight (delete i (inflight w)) w) s'))
      end
  end.

(** One turn of the loop; [None] when the event cannot occur in [s]. *)
Definition step (s : System) (e : Event) : option System :=
  match e with
  | Tick k r => if armed k s then Some (launch k Scheduled r s) else None
  | Call k r => Some (launch k Manual r s)
  | Settle i v => settle i v s
  | Dispatch event d =>
      if listening event s
      then Some (if String.eqb event "INTERACTION_CREATE"
                 then (onInteractionCreate d s).1 else s)
      else Some s
  | CommandError commandName => Some (onCommandError commandName s).1
  | SetCallback callback => Some (setInfluxDBCallback callback s).1
  | ClientChange c => Some (on_world (set_client c) s)
  end.

Fixpoint run (s : System) (es : list Event) : option System :=
  match es with
  | [] => Some s
  | e :: es' =>
      match step s e with
      | Some s' => run s' es'
      | None => None
      end
  end.

(** States the program can be in after a constructor that returned. *)
Inductive reachable : System -> Prop :=
  | reachable_new c env_token t0 o s :
      new_Metrics c env_token t0 o = (s, Normal tt) ->
      reachable s
  | reachable_step s e s' :
      reachable s -> step s e = Some s' -> reachable s'.

(** How many cycles of sink [k] started by [o] are suspended. *)
Definition inflightCount (k : Sink) (o : Origin) (s : System) : nat :=
  length (filter (fun c => cycleSink c = k ∧ cycleOrigin c = o)
                 (inflight (world s))).

(** ** Observations used in the statements *)

(** What the constructor fixes once and for all. *)
Definition config (s : System)
  : ResolvedOptions * option (string * string) * list Timer * list string
    * option string :=
  (options (this s), influxClient (this s), timers (world s),
   listeners (world s), TOPGG_TOKEN (world s)).

(** The timers the constructor arms for resolved options. *)
Definition timersOf (opts : ResolvedOptions) : list Timer :=
  (match optInfluxDB opts with
   | Some i =>
       if truthy_interval (influxReportInterval i)
       then [ {| timerSink := InfluxDB;
                 timerInterval := timerDelay (influxReportInterval i);
                 timerUnref := true |} ]
       else []
   | None => []
   end ++
   match optTopgg opts with
   | Some t =>
       if truthy_interval (topggReportInterval t)
       then [ {| timerSink := Topgg;
                 timerInterval := timerDelay (topggReportInterval t);
                 timerUnref := true |} ]
       else []
   | None => []
   end)%list.

(** The interval a sink was configured with: [None] when the sink is not
    configured, [Some None] when the interval is omitted. *)
Definition configuredInterval (k : Sink) (o : MetricsOptions)
  : option (option Z) :=
  match k with
  | InfluxDB => influx_reportInterval <$> influxDB o
  | Topgg => topgg_reportInterval <$> topgg o
  end.

(** How often [label] occurs in a sequence of increments. *)
Definition occurrences (label : string) (labels : list string) : nat :=
  length (filter (fun l => l = label) labels).

(** The error tally after a sequence of [incrementCommandError] calls. *)
Definition afterCommandErrors (s : System) (labels : list string) : System :=
  foldl (fun acc label => (incrementCommandError label acc).1) s labels.

(** The [(name, count)] pairs carried by the points of one measurement. *)
Definition countEntries (meas : string) (points : list Point)
  : list (list (string * string) * list Field) :=
  map (fun p => (tags p, fields p))
      (filter (fun p => measurement p = meas) points).

(** The value of the float field [name] of a point. *)
Definition floatFieldOf (name : string) (p : Point) : option number :=
  head (omap (fun f => match f with
                       | floatField n v =>
                           if bool_decide (n = name) then Some v else None
                       | _ => None
                       end) (fields p)).

(** The state once a cycle has stored its CPU sample. *)
Definition sampled (r : Reading) (s : System) : System :=
  on_this (set_lastCPUMetrics {| usage := cpuUsage r; time := now r |}) s.

(** The write API a cycle obtains for the resolved InfluxDB options. *)
Definition writeApiOf (i : InfluxDBResolved) : WriteApi :=
  useDefaultTags (extraTags i ∪ {[ "application" := application i ]})
    (getWriteApi (org i) (bucket i)).

(** The request a Top.gg cycle hands to the transport. *)
Definition topggRequestOf (t : TopggResolved) (s : System) : TopggRequest :=
  let c := client (world s) in
  {| route := "/bots/stats";
     server_count := guildCount c;
     shard_count := if postShards t then Some (Z.of_nat (length (shards c)))
                    else None;
     authHeader := match topggToken t with
                   | Some tok => Some tok
                   | None => TOPGG_TOKEN (world s)
                   end |}.

(** The tallies of a state. *)
Definition tallies (s : System) : Tally * Tally :=
  (_commands (this s), _commandErrors (this s)).

(** What holds of the configuration whenever the constructor returned. *)
Definition wellConfigured (s : System) : Prop :=
  timers (world s) = timersOf (options (this s))
  /\ listeners (world s) = ["INTERACTION_CREATE"]
  /\ (forall i, optInfluxDB (options (this s)) = Some i ->
        influxClient (this s) = Some (influxToken i, url i))
  /\ (forall t, optTopgg (options (this s)) = Some t ->
        truthy_string (topggToken t) = true).

(** The events by which every promise awaited by the cycle suspended in
    phase [ph] at position [n] resolves. *)
Definition resolutions (ph : Phase) (n : nat) : list Event :=
  match ph with
  | AwaitCallback _ _ => [Settle n (Resolved None); Settle n (Resolved None)]
  | AwaitClose _ _ | AwaitTopgg _ => [Settle n (Resolved None)]
  end.

(** The message logged when a cycle suspended in phase [ph] completes after
    its awaited promises resolved (a callback resolving to nothing). *)
Definition successMessage (ph : Phase) : string :=
  match ph with
  | AwaitCallback _ points | AwaitClose _ points =>
      "Wrote " ++ pretty (length points) ++ " points to InfluxDB"
  | AwaitTopgg _ => "Posted metrics to Top.gg"
  end.

(** The points a suspended InfluxDB cycle has built. *)
Definition phasePoints (ph : Phase) : list Point :=
  match ph with
  | AwaitCallback _ points | AwaitClose _ points => points
  | AwaitTopgg _ => []
  end.

(** ** Sample data *)

Definition sampleOf (u sy t : Z) : CPUMetrics :=
  {| usage := {| user := num_of_Z u; system := num_of_Z sy |};
     time := num_of_Z t |}.

Definition readingOf (u sy t : Z) : Reading :=
  {| cpuUsage := {| user := num_of_Z u; system := num_of_Z sy |};
     now := num_of_Z t; rss := 0; pointError := None |}.

Definition idleClient : Client :=
  {| commandIds := {[ "1001" ]}; responseCodeTally := []; shards := [];
     guildCount := 0; averagePing := num_of_Z 0 |}.

Definition influxEvery (interval : option Z) : InfluxDBOptions :=
  {| influx_application := "bot"; influx_bucket := "metrics";
     influx_extraTags := None; influx_org := "org";
     influx_reportInterval := interval; influx_token := "secret";
     influx_url := "http://localhost:8086" |}.

Definition topggEvery (interval : option Z) (token : option string)
  : TopggOptions :=
  {| topgg_reportInterval := interval; topgg_postShards := None;
     topgg_token := token |}.

(** The controller of a bot that reports to InfluxDB every second. *)
Definition influxBot : System :=
  (new_Metrics idleClient None (sampleOf 1000 500 0)
     {| influxDB := Some (influxEvery (Some 1000)); topgg := None |}).1.

(** The controller with both sinks configured for manual reporting only. *)
Definition manualBot : System :=
  (new_Metrics idleClient None (sampleOf 1000 500 0)
     {| influxDB := Some (influxEvery None);
        topgg := Some (topggEvery (Some 0) (Some "tok")) |}).1.

Definition influxBotOptions : InfluxDBResolved :=
  {| application := "bot"; bucket := "metrics"; extraTags := ∅;
     org := "org"; influxReportInterval := 1000;
     influxToken := "secret"; url := "http://localhost:8086" |}.

(** The cycle started by the first tick of [influxBot]. *)
Definition influxBotCycle : Cycle :=
  {| cycleSink := InfluxDB; cycleOrigin := Scheduled;
     cyclePhase :=
       AwaitClose (writeApiOf influxBotOptions)
         (builtPoints (collectStats influxBot (readingOf 3000 1500 2000))) |}.

(** [influxBot] while the cycle of its first tick awaits [writeAPI.close()]. *)
Definition influxBotReporting : System :=
  launch InfluxDB Scheduled (readingOf 3000 1500 2000) influxBot.

(** Both sinks on a schedule, the Top.gg sink without any token. *)
Definition tokenlessOptions : MetricsOptions :=
  {| influxDB := Some (influxEvery (Some 1000));
     topgg := Some (topggEvery (Some 60000) None) |}.

(** The state the constructor leaves behind for [tokenlessOptions]. *)
Definition tokenlessBot : System :=
  (new_Metrics idleClient None (sampleOf 1000 500 0) tokenlessOptions).1.

Definition pingCommand : Interaction :=
  {| type := ApplicationCommand; dataId := "1001"; dataName := "ping" |}.

Definition oopsEvents : list Event :=
  [ Dispatch "INTERACTION_CREATE" pingCommand;
    Dispatch "INTERACTION_CREATE" pingCommand;
    Dispatch "INTERACTION_CREATE" pingCommand;
    CommandError (Some "oops") ].

(** [influxBot] after three invocations of [ping] and one error of [oops]. *)
Definition oopsBot : System := default influxBot (run influxBot oopsEvents).

(** The binary64 value nearest to 0.15 (the literal [0.15]). *)
Definition double_0_15 : number := S754_finite false 5404319552844595 (-55).

(** The binary64 value nearest to 0.2 (the literal [0.2]). *)
Definition double_0_2 : number := S754_finite false 7205759403792794 (-55).

(** ** The command handler's error callback

    The callback that [ClientManager.setErrorCallbacks] passes to
    [commandHandler.setError], up to its [await ctx.sendEphemeral(...)].
    The error identifier is drawn from [Math.random()] and [Date.now()]; it
    is an input here. *)

(** What the callback reads from [ctx]. *)
Record ErrorContext := {
  ctxIsCommand : bool;
    (* ctx instanceof ChatCommandContext || ... ContextMenuCommandContext *)
  ctxCommandName : option string;   (* ctx.command?.name *)
  ctxInteractionId : string         (* ctx.interaction.id *)
}.

Record JsError := {
  errName : string;
  errMessage : string;
  errStack : string
}.

(** [this.logger.log(message, { level, system: `Command Handler` })] *)
Definition handler_log (message level : string) : Eff unit :=
  update (on_world (fun w =>
    set_logged (logged w ++ [ {| logMessage := message; logLevel := level;
                                 logSystem := "Command Handler" |} ]) w)).

Definition errorCallback (ctx : ErrorContext) (error : JsError)
    (unexpected : bool) (errorId : string) : Eff unit :=
  (if ctxIsCommand ctx
   then incrementCommandError (nullish (ctxCommandName ctx) "Unknown")
   else ret tt);;
  handler_log ((if unexpected then "Unexpected " else "")
                 ++ errName error ++ " (ID: " ++ errorId
                 ++ ") when running interaction " ++ ctxInteractionId ctx
                 ++ ": " ++ errMessage error) "ERROR";;
  when unexpected (console_error (errStack error)).

(** ** Reporting to Top.gg in the build under [dist/]

    [reportTopggMetrics] of [dist/structures/Metrics.js], up to its
    suspension; [userId] is [this.client.gateway.user?.id]. *)
Module DistTopgg.

Definition reportTopggMetrics (userId : option string) : Eff Phase :=
  s ← get;
  match optTopgg (options (this s)) with
  | None => throw "Cannot post to Top.gg; options not defined"
  | Some t =>
      if negb (truthy_string userId)
      then throw ("Cannot post to Top.gg: application ID is undefined "
                    ++ "(client.gateway.user.id)")
      else
        let c := client (world s) in
        req ← topggRequest ("/bots/" ++ nullish userId "" ++ "/stats")
                (guildCount c)
                (if postShards t then Some (Z.of_nat (length (shards c)))
                 else None)
                (topggToken t);
        ret (AwaitTopgg req)
  end.

End DistTopgg.

(** ** Further observations *)

(** The sum of the integer counts of a tally. *)
Definition tallyTotal (tally : Tally) : nat :=
  foldr (fun entry acc =>
           match entry.2 with
           | Num count => (count + acc)%nat
           | NaN => acc
           end) 0%nat tally.

(** Whether a number is neither an infinity nor NaN. *)
Definition isFinite (x : number) : bool :=
  match x with
  | S754_zero _ | S754_finite _ _ _ => true
  | S754_infinity _ | S754_nan => false
  end.

(** The message with which an unconfigured sink's report method throws. *)
Definition notDefinedMessage (k : Sink) : string :=
  match k with
  | InfluxDB => "Cannot post to InfluxDB; options not defined"
  | Topgg => "Cannot post to Top.gg; options not defined"
  end.

(** Whether the options a report method tests are missing. *)
Definition unconfigured (k : Sink) (s : System) : Prop :=
  match k with
  | InfluxDB =>
      optInfluxDB (options (this s)) = None \/ influxClient (this s) = None
  | Topgg => optTopgg (options (this s)) = None
  end.

(** Every cycle that awaits the end of a transmission has handed its payload
    to the transport. *)
Definition transmitted (s : System) : Prop :=
  forall c : Cycle,
    c ∈ inflight (world s) ->
    match cyclePhase c with
    | AwaitCallback _ _ => True
    | AwaitClose w points => (w, points) ∈ written (world s)
    | AwaitTopgg req => req ∈ requested (world s)
    end.

(** A bot without any sink configured. *)
Definition silentBot : System :=
  (new_Metrics idleClient None (sampleOf 1000 500 0)
     {| influxDB := None; topgg := None |}).1.

(** One invocation of the error callback. *)
Record ErrorCall := {
  callCtx : ErrorContext;
  callError : JsError;
  callUnexpected : bool;
  callErrorId : string
}.

(** The state after the error callback ran for each of [calls] in turn. *)
Definition afterErrorCallbacks (s : System) (calls : list ErrorCall)
  : System :=
  foldl (fun acc call =>
           (errorCallback (callCtx call) (callError call)
              (callUnexpected call) (callErrorId call) acc).1) s calls.

(** Whether an event calls [reportInfluxDBMetrics]. *)
Definition callsInfluxReport (e : Event) : bool :=
  match e with
  | Tick InfluxDB _ | Call InfluxDB _ => true
  | _ => false
  end.

(** The [Unknown] of the error callback. *)
Definition errorLabel (commandName : option string) : string :=
  nullish commandName "Unknown".

(** Whether an event is a reported error of a command whose name
    [Object.prototype] does not define. *)
Definition isCommandError (e : Event) : bool :=
  match e with
  | CommandError commandName => negb (inherited (errorLabel commandName))
  | _ => false
  end.

(** Whether an event is the dispatch of an application command
    interaction whose command name [Object.prototype] does not define. *)
Definition isCommandInteraction (e : Event) : bool :=
  match e with
  | Dispatch event d =>
      String.eqb event "INTERACTION_CREATE"
      && bool_decide (type d = ApplicationCommand)
      && negb (inherited (dataName d))
  | _ => false
  end.

(** The labels under which the error callback counts a sequence of calls. *)
Definition errorLabels (calls : list ErrorCall) : list string :=
  map (fun call => errorLabel (ctxCommandName (callCtx call)))
      (filter (fun call => ctxIsCommand (callCtx call) = true) calls).

(** How many of a sequence of labels [Object.prototype] does not define. *)
Definition ordinary (labels : list string) : nat :=
  length (filter (fun label => inherited label = false) labels).

(** [influxBot] with a callback registered, while the cycle of its first
    tick awaits the callback. *)
Definition callbackBot : System :=
  default influxBot
    (run influxBot [ SetCallback (Some "extraPoints");
                     Tick InfluxDB (readingOf 3000 1500 2000) ]).

Definition extraPoint : Point :=
  {| measurement := "queue"; tags := [("name", "jobs")];
     fields := [intField "length" 7] |}.

(** ** Observations on the tallies *)

(** The number a tally holds for [name]: 0 when it holds none. *)
Definition countOf (name : string) (tally : Tally) : nat :=
  match own name tally with
  | Some (Num count) => count
  | _ => 0%nat
  end.

(** What an object created by [{}] holds for [label] after [n] increments
    of it. *)
Definition counted (label : string) (n : nat) : option Count :=
  match n with
  | O => None
  | S _ =>
      if inherited label
      then (if decide (label = "__proto__") then None else Some NaN)
      else Some (Num n)
  end.

(** The counters of the names that [Object.prototype] defines are NaN, all
    the others are integers. *)
Definition proper (tally : Tally) : Prop :=
  forall (name : string) (c : Count),
    own name tally = Some c -> (c = NaN <-> inherited name = true).

(** A client whose command handler has a command named [constructor]. *)
Definition builderClient : Client :=
  {| commandIds := {[ "1001"; "1002" ]}; responseCodeTally := [];
     shards := []; guildCount := 0; averagePing := num_of_Z 0 |}.

Definition constructorCommand : Interaction :=
  {| type := ApplicationCommand; dataId := "1002";
     dataName := "constructor" |}.

Definition protoCommand : Interaction :=
  {| type := ApplicationCommand; dataId := "1002"; dataName := "__proto__" |}.

(** [influxBot] with the commands of [builderClient]. *)
Definition builderBot : System :=
  (new_Metrics builderClient None (sampleOf 1000 500 0)
     {| influxDB := Some (influxEvery (Some 1000)); topgg := None |}).1.

(** The options of [manualBot]. *)
Definition manualOptions : MetricsOptions :=
  {| influxDB := Some (influxEvery None);
     topgg := Some (topggEvery (Some 0) (Some "tok")) |}.

(** What a report reads in the millisecond in which the controller was
    constructed, after 2.5 ms more of CPU time: the CPU figure is then a
    division by zero, and [Point.floatField] throws for it. *)
Definition sameMillisecond : Reading :=
  {| cpuUsage := {| user := num_of_Z 3000; system := num_of_Z 1500 |};
     now := num_of_Z 0; rss := 0;
     pointError := Some "invalid float value for field 'cpu': 'Infinity'!" |}.

(** * Properties *)

(** ** Unfolding the effect monad *)

Ltac eff_unfold :=
  unfold mbind, mret, Eff_bind, Eff_ret, bind, ret, throw, get, update, when
    in *.

(** ** The tallies *)

Lemma own_assign_same (name : string) (value : Count) (tally : Tally) :
  own name (assign name value tally) = Some value.
Proof.
  induction tally as [|[key old] rest IH]; simpl.
  - by rewrite decide_True.
  - destruct (decide (key = name)) as [->|Hne]; simpl.
    + by rewrite decide_True.
    + by rewrite decide_False.
Qed.

Lemma own_assign_other (name other : string) (value : Count) (tally : Tally) :
  other ≠ name -> own other (assign name value tally) = own other tally.
Proof.
  intros Hne. induction tally as [|[key old] rest IH]; simpl.
  - by rewrite decide_False.
  - destruct (decide (key = name)) as [->|Hkey]; simpl.
    + by rewrite !decide_False.
    + destruct (decide (key = other)); done.
Qed.

Lemma inherited_proto (name : string) :
  name = "__proto__" -> inherited name = true.
Proof. intros ->. reflexivity. Qed.

(** What one increment leaves under the incremented name. *)
Lemma increment_own_same (name : string) (tally : Tally) :
  own name (increment name tally)
  = match own name tally with
    | Some (Num count) => Some (Num (S count))
    | Some NaN => Some NaN
    | None =>
        if inherited name
        then (if decide (name = "__proto__") then None else Some NaN)
        else Some (Num 1)
    end.
Proof.
  unfold increment.
  destruct (own name tally) as [[count|]|] eqn:Hown.
  - rewrite Hown. apply own_assign_same.
  - rewrite Hown. apply own_assign_same.
  - destruct (inherited name) eqn:Hinh.
    + rewrite Hown. destruct (decide (name = "__proto__")); [done|].
      apply own_assign_same.
    + rewrite own_assign_same. apply own_assign_same.
Qed.

Lemma increment_own_other (name other : string) (tally : Tally) :
  other ≠ name -> own other (increment name tally) = own other tally.
Proof.
  intros Hne. unfold increment.
  destruct (own name tally) as [[count|]|] eqn:Hown; rewrite ?Hown.
  - by apply own_assign_other.
  - by apply own_assign_other.
  - destruct (inherited name) eqn:Hinh.
    + rewrite Hown. destruct (decide (name = "__proto__")); [done|].
      by apply own_assign_other.
    + rewrite own_assign_same. by rewrite !own_assign_other.
Qed.

Lemma occurrences_cons (label l : string) (labels : list string) :
  occurrences label (l :: labels)
  = ((if decide (l = label) then 1 else 0) + occurrences label labels)%nat.
Proof.
  unfold occurrences. rewrite filter_cons.
  destruct (decide (l = label)); reflexivity.
Qed.

Lemma occurrences_snoc (label l : string) (labels : list string) :
  occurrences label (labels ++ [l])
  = (occurrences label labels + if decide (l = label) then 1 else 0)%nat.
Proof.
  unfold occurrences. rewrite filter_app, length_app, filter_cons.
  destruct (decide (l = label)); reflexivity.
Qed.

Lemma occurrences_perm (label : string) (labels labels' : list string) :
  labels ≡ₚ labels' -> occurrences label labels = occurrences label labels'.
Proof. intros Hperm. unfold occurrences. by rewrite Hperm. Qed.

(** What a sequence of increments leaves under each name of an object that
    was empty. *)
Lemma foldl_increment_own (labels : list string) (label : string) :
  own label (foldl (fun t l => increment l t) [] labels)
  = counted label (occurrences label labels).
Proof.
  induction labels as [|l labels IH] using rev_ind; [done|].
  rewrite foldl_app, occurrences_snoc. simpl.
  destruct (decide (l = label)) as [->|Hne].
  - rewrite increment_own_same, IH. unfold counted.
    destruct (occurrences label labels) as [|n]; simpl.
    + destruct (inherited label); [|done].
      by destruct (decide (label = "__proto__")).
    + destruct (inherited label) eqn:Hinh.
      * by destruct (decide (label = "__proto__")).
      * do 3 f_equal. lia.
  - rewrite increment_own_other by done. by rewrite IH, Nat.add_0_r.
Qed.

Lemma afterCommandErrors_tally (labels : list string) :
  forall s : System,
    _commandErrors (this (afterCommandErrors s labels))
    = foldl (fun t l => increment l t) (_commandErrors (this s)) labels.
Proof.
  unfold afterCommandErrors.
  induction labels as [|l labels IH]; intros s; simpl; [done|].
  rewrite IH. reflexivity.
Qed.

(** Increments keep the counters of inherited names apart from the others. *)
Lemma proper_nil : proper [].
Proof. intros name c. discriminate. Qed.

Lemma proper_increment (name : string) (tally : Tally) :
  proper tally -> proper (increment name tally).
Proof.
  intros Hp other c.
  destruct (decide (other = name)) as [->|Hne].
  - rewrite increment_own_same.
    destruct (own name tally) as [[count|]|] eqn:Hown.
    + intros [= <-]. specialize (Hp name (Num count) Hown).
      split; [done|]. intros Hinh. by apply Hp in Hinh.
    + intros [= <-]. exact (Hp name NaN Hown).
    + destruct (inherited name) eqn:Hinh.
      * destruct (decide (name = "__proto__")); [done|]. by intros [= <-].
      * by intros [= <-].
  - rewrite increment_own_other by done. apply Hp.
Qed.

(** C5: the tallies are objects created by [{}], so a label that
    [Object.prototype] defines is not counted: two errors of a command named
    [constructor] leave NaN under that name, and an error of [__proto__]
    leaves no entry at all.  For every other label the tally that started
    empty holds exactly the number of calls issued for it (no entry when
    there was none), one call putting 1 under an absent label and adding 1
    to a present one; and what the tally holds under a label, of either
    kind, does not depend on the order of the calls. *)
Theorem C5_tally_counts_ordinary_labels_only :
  _commandErrors
    (this (afterCommandErrors influxBot
             ["constructor"; "ping"; "constructor"]))
  = [("constructor", NaN); ("ping", Num 1)]
  /\ occurrences "constructor" ["constructor"; "ping"; "constructor"] = 2%nat
  /\ _commandErrors (this (afterCommandErrors influxBot ["__proto__"])) = []
  /\ _commandErrors
       (this (afterCommandErrors influxBot ["ping"; "help"; "ping"]))
     = [("ping", Num 2); ("help", Num 1)]
  /\ (forall (s : System) (labels : list string),
         _commandErrors (this s) = [] ->
         (forall label : string,
             own label (_commandErrors (this (afterCommandErrors s labels)))
             = counted label (occurrences label labels))
         /\ (forall label : string,
                inherited label = false ->
                own label (_commandErrors (this (afterCommandErrors s labels)))
                = if decide (occurrences label labels = 0%nat) then None
                  else Some (Num (occurrences label labels)))
         /\ (forall (labels' : list string) (label : string),
                labels ≡ₚ labels' ->
                own label
                  (_commandErrors (this (afterCommandErrors s labels')))
                = own label
                    (_commandErrors (this (afterCommandErrors s labels)))))
  /\ (forall (s : System) (label : string),
         own label (_commandErrors (this (incrementCommandError label s).1))
         = match own label (_commandErrors (this s)) with
           | Some (Num count) => Some (Num (S count))
           | Some NaN => Some NaN
           | None =>
               if inherited label
               then (if decide (label = "__proto__") then None else Some NaN)
               else Some (Num 1)
           end).
Proof.
  split_and!.
  - vm_compute; reflexivity.
  - vm_compute; reflexivity.
  - vm_compute; reflexivity.
  - vm_compute; reflexivity.
  - intros s labels Hempty.
    assert (Hown : forall (ls : list string) (label : string),
               own label (_commandErrors (this (afterCommandErrors s ls)))
               = counted label (occurrences label ls)).
    { intros ls label.
      rewrite afterCommandErrors_tally, Hempty. apply foldl_increment_own. }
    split_and!.
    + apply Hown.
    + intros label Hinh. rewrite Hown. unfold counted. rewrite Hinh.
      by destruct (occurrences label labels).
    + intros labels' label Hperm. rewrite !Hown.
      by rewrite (occurrences_perm label labels labels').
  - intros s label. simpl. apply increment_own_same.
Qed.

(** ** The interaction listener *)

Lemma onInteractionCreate_counted (d : Interaction) (s : System) :
  type d = ApplicationCommand ->
  dataId d ∈ commandIds (client (world s)) ->
  (onInteractionCreate d s).1
  = on_this (fun m => set_commands (increment (dataName d) (_commands m)) m) s.
Proof.
  intros Htype Hid. unfold onInteractionCreate. eff_unfold.
  rewrite !bool_decide_eq_true_2 by done. reflexivity.
Qed.

Lemma onInteractionCreate_ignored (d : Interaction) (s : System) :
  ¬ (type d = ApplicationCommand /\ dataId d ∈ commandIds (client (world s))) ->
  (onInteractionCreate d s).1 = s.
Proof.
  intros Hnot. unfold onInteractionCreate. eff_unfold.
  destruct (decide (type d = ApplicationCommand)) as [Ht|Ht].
  - rewrite (bool_decide_eq_true_2 _ Ht).
    rewrite bool_decide_eq_false_2 by tauto. reflexivity.
  - rewrite (bool_decide_eq_false_2 _ Ht). reflexivity.
Qed.
(** ** The synchronous prefixes of the report methods *)

Lemma reportInfluxDBMetrics_unconfigured (r : Reading) (s : System) :
  optInfluxDB (options (this s)) = None \/ influxClient (this s) = None ->
  reportInfluxDBMetrics r s
  = (s, Throw "Cannot post to InfluxDB; options not defined").
Proof.
  intros Hguard. unfold reportInfluxDBMetrics. eff_unfold.
  destruct (optInfluxDB (options (this s))), (influxClient (this s));
    try reflexivity.
  destruct Hguard; discriminate.
Qed.

Lemma reportInfluxDBMetrics_configured (r : Reading) (s : System)
    (i : InfluxDBResolved) (cl : string * string) :
  optInfluxDB (options (this s)) = Some i ->
  influxClient (this s) = Some cl ->
  reportInfluxDBMetrics r s
  = match pointError r with
    | Some e => (sampled r s, Throw e)
    | None =>
        let points := builtPoints (collectStats s r) in
        match _influxDBCallback (this s) with
        | Some _ => (sampled r s, Normal (AwaitCallback (writeApiOf i) points))
        | None =>
            (on_world (fun wd =>
               set_written (written wd ++ [(writeApiOf i, points)]) wd)
               (sampled r s),
             Normal (AwaitClose (writeApiOf i) points))
        end
    end.
Proof.
  intros Hopt Hcl. unfold reportInfluxDBMetrics. eff_unfold.
  rewrite Hopt, Hcl.
  destruct (pointError r); [reflexivity|].
  destruct (_influxDBCallback (this s)); reflexivity.
Qed.

Lemma reportTopggMetrics_unconfigured (s : System) :
  optTopgg (options (this s)) = None ->
  reportTopggMetrics s = (s, Throw "Cannot post to Top.gg; options not defined").
Proof.
  intros Hopt. unfold reportTopggMetrics. eff_unfold. by rewrite Hopt.
Qed.

Lemma reportTopggMetrics_configured (s : System) (t : TopggResolved) :
  optTopgg (options (this s)) = Some t ->
  reportTopggMetrics s
  = if negb (truthy_string (topggToken t))
       && negb (truthy_string (TOPGG_TOKEN (world s)))
    then (s, Throw "Top.gg API token is undefined")
    else (on_world (fun w =>
            set_requested (requested w ++ [topggRequestOf t s]) w) s,
          Normal (AwaitTopgg (topggRequestOf t s))).
Proof.
  intros Hopt. unfold reportTopggMetrics, topggRequest. eff_unfold.
  rewrite Hopt.
  destruct (negb (truthy_string (topggToken t))
            && negb (truthy_string (TOPGG_TOKEN (world s)))); reflexivity.
Qed.

(** A report method changes neither the configuration nor the tallies, and
    starts or ends no cycle by itself. *)
Lemma report_frame (k : Sink) (r : Reading) (s s' : System)
    (c : Completion Phase) :
  report k r s = (s', c) ->
  config s' = config s /\ tallies s' = tallies s
  /\ inflight (world s') = inflight (world s)
  /\ console (world s') = console (world s)
  /\ propagated (world s') = propagated (world s)
  /\ logged (world s') = logged (world s)
  /\ _influxDBCallback (this s') = _influxDBCallback (this s).
Proof.
  destruct k; simpl.
  - destruct (optInfluxDB (options (this s))) as [i|] eqn:Hopt;
      [destruct (influxClient (this s)) as [cl|] eqn:Hcl|].
    + rewrite (reportInfluxDBMetrics_configured r s i cl Hopt Hcl).
      destruct (pointError r);
        [|destruct (_influxDBCallback (this s)) eqn:Hcb];
        simpl; intros [= <- <-]; repeat split; try reflexivity; exact Hcb.
    + rewrite reportInfluxDBMetrics_unconfigured by auto.
      intros [= <- <-]; done.
    + rewrite reportInfluxDBMetrics_unconfigured by auto.
      intros [= <- <-]; done.
  - destruct (optTopgg (options (this s))) as [t|] eqn:Hopt.
    + rewrite (reportTopggMetrics_configured s t Hopt).
      destruct (negb (truthy_string (topggToken t))
                && negb (truthy_string (TOPGG_TOKEN (world s))));
        intros [= <- <-]; done.
    + rewrite reportTopggMetrics_unconfigured by done.
      intros [= <- <-]; done.
Qed.

Lemma rejected_frame (k : Sink) (o : Origin) (reason : string) (s : System) :
  config (rejected k o reason s) = config s
  /\ tallies (rejected k o reason s) = tallies s
  /\ this (rejected k o reason s) = this s
  /\ inflight (world (rejected k o reason s)) = inflight (world s)
  /\ logged (world (rejected k o reason s)) = logged (world s).
Proof. destruct o; done. Qed.

Lemma launch_frame (k : Sink) (o : Origin) (r : Reading) (s : System) :
  config (launch k o r s) = config s /\ tallies (launch k o r s) = tallies s.
Proof.
  unfold launch.
  destruct (report k r s) as [s' [ph|reason]] eqn:Hrep;
    apply report_frame in Hrep as (Hc & Ht & _).
  - split; [rewrite <- Hc|rewrite <- Ht]; reflexivity.
  - destruct (rejected_frame k o reason s') as (Hc' & Ht' & _).
    split; congruence.
Qed.

Lemma resume_frame (ph : Phase) (v : Settlement) (s s' : System)
    (c : Completion (option Phase)) :
  resume ph v s = (s', c) ->
  this s' = this s /\ config s' = config s
  /\ inflight (world s') = inflight (world s)
  /\ console (world s') = console (world s)
  /\ propagated (world s') = propagated (world s).
Proof.
  unfold resume, writePoints, logger_log. eff_unfold.
  destruct v as [value|reason]; [destruct ph|]; intros [= <- <-]; done.
Qed.

Lemma settle_frame (i : nat) (v : Settlement) (s s' : System) :
  settle i v s = Some s' -> this s' = this s /\ config s' = config s.
Proof.
  unfold settle.
  destruct (inflight (world s) !! i) as [c|]; [|discriminate].
  destruct (resume (cyclePhase c) v s) as [s1 [[ph|]|reason]] eqn:Hres;
    apply resume_frame in Hres as (Hthis & Hcfg & _);
    intros [= <-].
  - split; [rewrite <- Hthis|rewrite <- Hcfg]; reflexivity.
  - split; [rewrite <- Hthis|rewrite <- Hcfg]; reflexivity.
  - destruct (rejected_frame (cycleSink c) (cycleOrigin c) reason
                (on_world (fun w => set_inflight (delete i (inflight w)) w) s1))
      as (Hc' & _ & Ht' & _).
    split; [rewrite Ht', <- Hthis|rewrite Hc', <- Hcfg]; reflexivity.
Qed.

(** No event changes what the constructor fixed: the resolved options, the
    InfluxDB client, the armed timers and the registered listeners. *)
Lemma step_config (s : System) (e : Event) (s' : System) :
  step s e = Some s' -> config s' = config s.
Proof.
  destruct e as [k r|k r|i v|event d|name|cb|c]; simpl.
  - destruct (armed k s); intros [= <-]. apply launch_frame.
  - intros [= <-]. apply launch_frame.
  - intros Hs. by apply settle_frame in Hs as [_ ?].
  - destruct (listening event s); intros [= <-]; [|done].
    destruct (String.eqb event "INTERACTION_CREATE"); [|done].
    unfold onInteractionCreate. eff_unfold.
    destruct (bool_decide (type d = ApplicationCommand)
              && bool_decide (dataId d ∈ commandIds (client (world s)))); done.
  - intros [= <-]. done.
  - intros [= <-]. done.
  - intros [= <-]. done.
Qed.

Lemma run_config (es : list Event) :
  forall s s' : System, run s es = Some s' -> config s' = config s.
Proof.
  induction es as [|e es IH]; intros s s'; simpl.
  - by intros [= <-].
  - destruct (step s e) as [s1|] eqn:Hstep; [|discriminate].
    intros Hrun. rewrite (IH _ _ Hrun). exact (step_config _ _ _ Hstep).
Qed.

Lemma reachable_run (es : list Event) :
  forall s s' : System, reachable s -> run s es = Some s' -> reachable s'.
Proof.
  induction es as [|e es IH]; intros s s' Hreach; simpl.
  - by intros [= <-].
  - destruct (step s e) as [s1|] eqn:Hstep; [|discriminate].
    apply IH. by eapply reachable_step.
Qed.

(** ** The constructor *)

Lemma new_Metrics_returns (c : Client) (env_token : option string)
    (t0 : CPUMetrics) (o : MetricsOptions) (s : System) :
  new_Metrics c env_token t0 o = (s, Normal tt) ->
  options (this s) = resolveOptions env_token o
  /\ wellConfigured s
  /\ tallies s = ([], [])
  /\ inflight (world s) = []
  /\ _lastCPUMetrics (this s) = t0.
Proof.
  unfold new_Metrics, constructor, wellConfigured, timersOf, setInterval,
    gateway_on, logger_log, resolveOptions.
  eff_unfold. simpl.
  destruct (influxDB o) as [i|], (topgg o) as [t|]; simpl;
    repeat match goal with
      | |- context [truthy_interval ?x] => destruct (truthy_interval x) eqn:?
      | |- context [truthy_string ?x] => destruct (truthy_string x) eqn:?
      end; simpl;
    intros [= <-]; simpl; split_and!; try done;
    try (intros ? [= <-]; simpl; done);
    simpl; repeat match goal with H : _ = _ |- _ => rewrite H end; done.
Qed.

Lemma reachable_wellConfigured (s : System) : reachable s -> wellConfigured s.
Proof.
  induction 1 as [c env_token t0 o s Hnew|s e s' _ IH Hstep].
  - by apply new_Metrics_returns in Hnew as (_ & ? & _).
  - apply step_config in Hstep. unfold config in Hstep.
    injection Hstep as Ho Hc Ht Hl He.
    unfold wellConfigured in *. rewrite Ho, Hc, Ht, Hl. exact IH.
Qed.

Lemma armed_timer (k : Sink) (s : System) :
  armed k s = true <-> exists t, t ∈ timers (world s) /\ timerSink t = k.
Proof.
  unfold armed. rewrite existsb_exists. split.
  - intros (t & Hin & Hk). exists t. split; [by apply list_elem_of_In|].
    by apply bool_decide_eq_true in Hk.
  - intros (t & Hin & Hk). exists t. split; [by apply list_elem_of_In|].
    by apply bool_decide_eq_true.
Qed.

(** A sink whose timer is armed is configured, with a non-zero interval. *)
Lemma armed_configured (k : Sink) (s : System) :
  wellConfigured s -> armed k s = true ->
  match k with
  | InfluxDB =>
      exists i, optInfluxDB (options (this s)) = Some i
                /\ influxClient (this s) = Some (influxToken i, url i)
                /\ influxReportInterval i ≠ 0
  | Topgg =>
      exists t, optTopgg (options (this s)) = Some t
                /\ truthy_string (topggToken t) = true
                /\ topggReportInterval t ≠ 0
  end.
Proof.
  intros (Htimers & _ & Hinflux & Htopgg) Harmed.
  apply armed_timer in Harmed as (t & Hin & Hk).
  rewrite Htimers in Hin. unfold timersOf in Hin.
  apply elem_of_app in Hin as [Hin|Hin].
  - destruct (optInfluxDB (options (this s))) as [i|] eqn:Hopt;
      [|by apply elem_of_nil in Hin].
    destruct (truthy_interval (influxReportInterval i)) eqn:Htruthy;
      [|by apply elem_of_nil in Hin].
    apply list_elem_of_singleton in Hin. subst t. simpl in Hk. subst k.
    exists i. split_and!; [done|by apply Hinflux|].
    unfold truthy_interval in Htruthy. apply negb_true_iff in Htruthy.
    by apply Z.eqb_neq in Htruthy.
  - destruct (optTopgg (options (this s))) as [tg|] eqn:Hopt;
      [|by apply elem_of_nil in Hin].
    destruct (truthy_interval (topggReportInterval tg)) eqn:Htruthy;
      [|by apply elem_of_nil in Hin].
    apply list_elem_of_singleton in Hin. subst t. simpl in Hk. subst k.
    exists tg. split_and!; [done|by apply Htopgg|].
    unfold truthy_interval in Htruthy. apply negb_true_iff in Htruthy.
    by apply Z.eqb_neq in Htruthy.
Qed.

(** A report method of a configured sink whose points build without an
    exception reaches its first [await]. *)
Lemma report_suspends (k : Sink) (r : Reading) (s : System) :
  match k with
  | InfluxDB => exists i cl, optInfluxDB (options (this s)) = Some i
                             /\ influxClient (this s) = Some cl
  | Topgg => exists t, optTopgg (options (this s)) = Some t
                       /\ truthy_string (topggToken t) = true
  end ->
  pointError r = None ->
  exists s1 ph, report k r s = (s1, Normal ph)
                /\ _lastCPUMetrics (this s1)
                   = match k with
                     | InfluxDB => {| usage := cpuUsage r; time := now r |}
                     | Topgg => _lastCPUMetrics (this s)
                     end.
Proof.
  destruct k; simpl.
  - intros (i & cl & Hopt & Hcl) Hpe.
    rewrite (reportInfluxDBMetrics_configured r s i cl Hopt Hcl), Hpe.
    destruct (_influxDBCallback (this s)); simpl; eauto.
  - intros (t & Hopt & Htok) _.
    rewrite (reportTopggMetrics_configured s t Hopt), Htok. simpl. eauto.
Qed.

(** The timer callback of an armed sink always starts a cycle: the state
    after the tick has one more suspended cycle, appended to the others. *)
Lemma tick_starts_cycle (k : Sink) (r : Reading) (s : System) :
  wellConfigured s -> armed k s = true -> pointError r = None ->
  exists s' ph,
    step s (Tick k r) = Some s'
    /\ inflight (world s')
       = (inflight (world s)
            ++ [ {| cycleSink := k; cycleOrigin := Scheduled;
                    cyclePhase := ph |} ])%list.
Proof.
  intros Hwf Harmed Hpe.
  pose proof (armed_configured k s Hwf Harmed) as Hcfg.
  destruct (report_suspends k r s) as (s1 & ph & Hrep & _); [|done|].
  { destruct k; destruct Hcfg as (x & ? & ? & ?); eauto. }
  exists (launch k Scheduled r s), ph. simpl. rewrite Harmed.
  split; [done|]. unfold launch. rewrite Hrep. simpl.
  apply report_frame in Hrep as (_ & _ & Hin & _). by rewrite Hin.
Qed.

(** ** The tallies under every event *)

(** An increment removes no entry, lowers no count and turns no count into
    NaN. *)
Lemma increment_monotone (name : string) (tally : Tally)
    (key : string) (c : Count) :
  own key tally = Some c ->
  own key (increment name tally) = Some c
  \/ exists n : nat,
       c = Num n /\ own key (increment name tally) = Some (Num (S n)).
Proof.
  intros Hown. destruct (decide (key = name)) as [->|Hne].
  - rewrite increment_own_same, Hown. destruct c as [n|]; [|by left].
    right. by exists n.
  - left. by rewrite increment_own_other.
Qed.

(** Under a name that [Object.prototype] does not define, an increment
    leaves the counter alone or makes it the successor of what the tally
    held. *)
Lemma increment_ordinary (name : string) (tally : Tally) (key : string) :
  inherited key = false ->
  own key (increment name tally) = own key tally
  \/ own key (increment name tally) = Some (Num (S (countOf key tally))).
Proof.
  intros Hinh. destruct (decide (key = name)) as [->|Hne].
  - rewrite increment_own_same. unfold countOf.
    destruct (own name tally) as [[n|]|]; [by right|by left|].
    rewrite Hinh. by right.
  - left. by rewrite increment_own_other.
Qed.

Lemma step_tallies (s : System) (e : Event) (s' : System) :
  step s e = Some s' ->
  tallies s' = tallies s
  \/ (exists name, tallies s'
                   = (increment name (_commands (this s)),
                      _commandErrors (this s)))
  \/ (exists name, tallies s'
                   = (_commands (this s),
                      increment name (_commandErrors (this s)))).
Proof.
  destruct e as [k r|k r|i v|event d|name|cb|c]; simpl.
  - destruct (armed k s); intros [= <-]. left. apply launch_frame.
  - intros [= <-]. left. apply launch_frame.
  - intros Hs. left. apply settle_frame in Hs as [Hthis _].
    unfold tallies. by rewrite Hthis.
  - destruct (listening event s); intros [= <-]; [|by left].
    destruct (String.eqb event "INTERACTION_CREATE"); [|by left].
    unfold onInteractionCreate. eff_unfold.
    destruct (bool_decide (type d = ApplicationCommand)
              && bool_decide (dataId d ∈ commandIds (client (world s))));
      [|by left].
    right. left. by exists (dataName d).
  - intros [= <-]. right. right. by exists (nullish name "Unknown").
  - intros [= <-]. by left.
  - intros [= <-]. by left.
Qed.

(** In every state the program can reach, the counters of ordinary names
    are integers and those of inherited names are NaN. *)
Lemma reachable_proper (s : System) :
  reachable s ->
  proper (_commands (this s)) /\ proper (_commandErrors (this s)).
Proof.
  induction 1 as [c env_token t0 o s Hnew|s e s' _ [IHc IHe] Hstep].
  - apply new_Metrics_returns in Hnew as (_ & _ & Ht & _).
    unfold tallies in Ht. injection Ht as -> ->. split; apply proper_nil.
  - destruct (step_tallies s e s' Hstep) as [Heq|[[n Heq]|[n Heq]]];
      unfold tallies in Heq; injection Heq as -> ->;
      split; try done; by apply proper_increment.
Qed.

(** C9: under every event of the controller's life (a timer tick or a manual
    call of either report method, the settlement of a suspended cycle, a
    gateway dispatch, a reported command error, a callback registration, a
    change of the collaborators) the two tallies stay as they are or one of
    them undergoes one increment; no entry is ever removed, no integer
    count decreases or is reset, and under a name that [Object.prototype]
    does not define the counter is left alone or grows by exactly 1.  But
    the increment of a name that [Object.prototype] defines does not
    increase an entry by 1: an error of a command named [constructor]
    creates an entry whose count is NaN, and it stays NaN under every later
    error of that command. *)
Theorem C9_increment_can_create_NaN_entry :
  (exists s1 s2 : System,
      step influxBot (CommandError (Some "constructor")) = Some s1
      /\ tallies s1 = ([], [("constructor", NaN)])
      /\ step s1 (CommandError (Some "constructor")) = Some s2
      /\ tallies s2 = ([], [("constructor", NaN)]))
  /\ (exists s1 : System,
         step oopsBot (CommandError (Some "oops")) = Some s1
         /\ tallies oopsBot = ([("ping", Num 3)], [("oops", Num 1)])
         /\ tallies s1 = ([("ping", Num 3)], [("oops", Num 2)]))
  /\ (forall (s : System) (e : Event) (s' : System),
         step s e = Some s' ->
         (tallies s' = tallies s
          \/ (exists name,
                _commands (this s') = increment name (_commands (this s))
                /\ _commandErrors (this s') = _commandErrors (this s))
          \/ (exists name,
                _commandErrors (this s')
                = increment name (_commandErrors (this s))
                /\ _commands (this s') = _commands (this s)))
         /\ (forall (name : string) (c : Count),
                own name (_commands (this s)) = Some c ->
                own name (_commands (this s')) = Some c
                \/ exists n : nat,
                     c = Num n
                     /\ own name (_commands (this s')) = Some (Num (S n)))
         /\ (forall (name : string) (c : Count),
                own name (_commandErrors (this s)) = Some c ->
                own name (_commandErrors (this s')) = Some c
                \/ exists n : nat,
                     c = Num n
                     /\ own name (_commandErrors (this s'))
                        = Some (Num (S n)))
         /\ (forall name : string,
                inherited name = false ->
                (own name (_commands (this s'))
                 = own name (_commands (this s))
                 \/ own name (_commands (this s'))
                    = Some (Num (S (countOf name (_commands (this s))))))
                /\ (own name (_commandErrors (this s'))
                    = own name (_commandErrors (this s))
                    \/ own name (_commandErrors (this s'))
                       = Some (Num (S (countOf name
                                         (_commandErrors (this s))))))))
  /\ (forall s : System,
         reachable s ->
         proper (_commands (this s)) /\ proper (_commandErrors (this s))).
Proof.
  split_and!.
  - eexists _, _. split_and!; vm_compute; reflexivity.
  - eexists. split_and!; vm_compute; reflexivity.
  - intros s e s' Hstep.
    destruct (step_tallies s e s' Hstep) as [Heq|[[n Heq]|[n Heq]]];
      unfold tallies in *; injection Heq as Hc He.
    + rewrite Hc, He. split_and!; eauto.
    + rewrite Hc, He. split_and!; eauto using increment_monotone.
      intros name Hinh. split; [by apply increment_ordinary|by left].
    + rewrite Hc, He. split_and!; eauto using increment_monotone.
      intros name Hinh. split; [by left|by apply increment_ordinary].
  - apply reachable_proper.
Qed.

(** ** The interaction listener on the gateway *)

(** C10: the listener that the constructor registers for
    [INTERACTION_CREATE] reaches every such dispatch.  It leaves the state
    as it was unless the interaction is an application command whose id is a
    key of the command handler's command map, and then applies one
    increment to the invocation tally under the command's name; for a name
    that [Object.prototype] does not define the count under it grows by
    exactly 1 if and only if the command is registered.  But a registered
    command named [constructor] is not counted, its entry being NaN, and one
    named [__proto__] gets no entry.  Dispatches of other gateway events
    change nothing, and the error tally is never touched. *)
Theorem C10_registered_command_named_constructor_not_counted :
  (reachable builderBot
   /\ type constructorCommand = ApplicationCommand
   /\ dataId constructorCommand ∈ commandIds (client (world builderBot))
   /\ dataId protoCommand ∈ commandIds (client (world builderBot))
   /\ tallies builderBot = ([], []))
  /\ (exists s1 : System,
         step builderBot (Dispatch "INTERACTION_CREATE" constructorCommand)
         = Some s1
         /\ tallies s1 = ([("constructor", NaN)], []))
  /\ (exists s1 : System,
         step builderBot (Dispatch "INTERACTION_CREATE" protoCommand)
         = Some s1
         /\ tallies s1 = ([], []))
  /\ (exists s1 : System,
         step builderBot (Dispatch "INTERACTION_CREATE" pingCommand) = Some s1
         /\ tallies s1 = ([("ping", Num 1)], []))
  /\ (forall (s : System) (d : Interaction),
         reachable s ->
         let registered :=
           type d = ApplicationCommand
           /\ dataId d ∈ commandIds (client (world s)) in
         exists s' : System,
           step s (Dispatch "INTERACTION_CREATE" d) = Some s'
           /\ _commandErrors (this s') = _commandErrors (this s)
           /\ (registered ->
               s' = on_this (fun m =>
                      set_commands (increment (dataName d) (_commands m)) m) s)
           /\ (¬ registered -> s' = s)
           /\ (inherited (dataName d) = false ->
               (own (dataName d) (_commands (this s'))
                = Some (Num (S (countOf (dataName d) (_commands (this s)))))
                <-> registered)))
  /\ (forall (s : System) (event : string) (d : Interaction),
         event ≠ "INTERACTION_CREATE" -> step s (Dispatch event d) = Some s).
Proof.
  split_and!.
  - by eapply (reachable_new builderClient None (sampleOf 1000 500 0)
                 {| influxDB := Some (influxEvery (Some 1000));
                    topgg := None |}).
  - reflexivity.
  - vm_compute. reflexivity.
  - vm_compute. reflexivity.
  - vm_compute. reflexivity.
  - eexists. split; vm_compute; reflexivity.
  - eexists. split; vm_compute; reflexivity.
  - eexists. split; vm_compute; reflexivity.
  - intros s d Hreach registered.
    pose proof (reachable_wellConfigured s Hreach) as (_ & Hl & _).
    destruct (reachable_proper s Hreach) as [Hproper _].
    exists (onInteractionCreate d s).1.
    assert (Hfresh : own (dataName d) (_commands (this s))
                     ≠ Some (Num (S (countOf (dataName d)
                                       (_commands (this s)))))).
    { unfold countOf.
      destruct (own (dataName d) (_commands (this s))) as [[n|]|];
        try done. intros [= Heq]. lia. }
    split.
    { unfold step, listening. rewrite Hl. reflexivity. }
    destruct (decide registered) as [Hreg|Hreg].
    + pose proof Hreg as [Ht Hid].
      rewrite onInteractionCreate_counted by done. simpl.
      split_and!; try done.
      intros Hinh. split; [done|]. intros _.
      rewrite increment_own_same. unfold countOf.
      destruct (own (dataName d) (_commands (this s))) as [[n|]|] eqn:Hown;
        [done| |by rewrite Hinh].
      apply Hproper in Hown. destruct Hown as [Hnan _].
      rewrite Hnan in Hinh by done. done.
    + rewrite onInteractionCreate_ignored by exact Hreg.
      split_and!; try done.
  - intros s event d Hne. unfold step.
    apply String.eqb_neq in Hne. rewrite Hne.
    destruct (listening event s); reflexivity.
Qed.

(** ** The retained CPU sample *)

(** C8: a call of [reportInfluxDBMetrics] that passes the configuration
    guard stores the sample it has just taken in [_lastCPUMetrics] before it
    reaches its first suspension or throws: the sample is stored whether the
    points build or raise, whether a callback is registered or not, and no
    later settlement of an awaited promise (callback, [writeAPI.close()])
    changes it, be it a resolution or a rejection.  The build under [dist/]
    stores the sample before its first suspension as well. *)
Theorem C8_last_sample_always_replaced (s : System) (r : Reading)
    (i : InfluxDBResolved) (cl : string * string) :
  optInfluxDB (options (this s)) = Some i ->
  influxClient (this s) = Some cl ->
  let fresh_sample := {| usage := cpuUsage r; time := now r |} in
  _lastCPUMetrics (this (reportInfluxDBMetrics r s).1) = fresh_sample
  /\ (forall o : Origin,
         _lastCPUMetrics (this (launch InfluxDB o r s)) = fresh_sample)
  /\ (forall (s1 s2 : System) (j : nat) (v : Settlement),
         settle j v s1 = Some s2 ->
         _lastCPUMetrics (this s2) = _lastCPUMetrics (this s1))
  /\ (exists (s1 : System) (collected : Dist.Collected),
        Dist.reportInfluxDBMetrics r s = (s1, Normal collected)
        /\ _lastCPUMetrics (this s1) = fresh_sample).
Proof.
  intros Hopt Hcl fresh_sample.
  assert (Hprefix : _lastCPUMetrics (this (reportInfluxDBMetrics r s).1)
                    = fresh_sample).
  { rewrite (reportInfluxDBMetrics_configured r s i cl Hopt Hcl).
    destruct (pointError r); [|destruct (_influxDBCallback (this s))];
      reflexivity. }
  split_and!.
  - exact Hprefix.
  - intros o. unfold launch. simpl report.
    destruct (reportInfluxDBMetrics r s) as [s1 [ph|reason]]; simpl in *.
    + exact Hprefix.
    + destruct (rejected_frame InfluxDB o reason s1) as (_ & _ & Hthis & _).
      by rewrite Hthis.
  - intros s1 s2 j v Hsettle.
    apply settle_frame in Hsettle as [Hthis _]. by rewrite Hthis.
  - unfold Dist.reportInfluxDBMetrics. eff_unfold. rewrite Hopt, Hcl.
    eexists _, _. split; reflexivity.
Qed.

Lemma C8_witness :
  (optInfluxDB (options (this influxBot)) = Some influxBotOptions
   /\ influxClient (this influxBot) = Some ("secret", "http://localhost:8086"))
  /\ _lastCPUMetrics
       (this (launch InfluxDB Scheduled
                {| cpuUsage := {| user := num_of_Z 3000;
                                  system := num_of_Z 1500 |};
                   now := num_of_Z 2000; rss := 0;
                   pointError := Some "invalid float value" |} influxBot))
     = sampleOf 3000 1500 2000.
Proof.
  assert (Hopt : optInfluxDB (options (this influxBot))
                 = Some influxBotOptions) by reflexivity.
  assert (Hcl : influxClient (this influxBot)
                = Some ("secret", "http://localhost:8086")) by reflexivity.
  split; [by split|].
  exact (proj1 (proj2 (C8_last_sample_always_replaced influxBot _ _ _
                         Hopt Hcl)) Scheduled).
Defined.

(** ** Suspended cycles *)

Lemma inflightCount_snoc (k : Sink) (o : Origin) (s s' : System) (c : Cycle) :
  inflight (world s') = (inflight (world s) ++ [c])%list ->
  inflightCount k o s'
  = (inflightCount k o s
     + if decide (cycleSink c = k /\ cycleOrigin c = o) then 1 else 0)%nat.
Proof.
  intros Hin. unfold inflightCount. rewrite Hin, filter_app, length_app.
  f_equal. rewrite filter_cons, filter_nil.
  destruct (decide (cycleSink c = k /\ cycleOrigin c = o)); reflexivity.
Qed.

Lemma launch_inflight (k : Sink) (o : Origin) (r : Reading) (s : System) :
  inflight (world (launch k o r s)) = inflight (world s)
  \/ exists ph,
       inflight (world (launch k o r s))
       = (inflight (world s)
            ++ [ {| cycleSink := k; cycleOrigin := o; cyclePhase := ph |} ])%list.
Proof.
  unfold launch.
  destruct (report k r s) as [s1 [ph|reason]] eqn:Hrep;
    apply report_frame in Hrep as (_ & _ & Hin & _).
  - right. exists ph. simpl. by rewrite Hin.
  - left. destruct (rejected_frame k o reason s1) as (_ & _ & _ & Hin' & _).
    by rewrite Hin'.
Qed.

Lemma settle_rejected (i : nat) (reason : string) (s : System) (c : Cycle) :
  inflight (world s) !! i = Some c ->
  settle i (Rejected reason) s
  = Some (rejected (cycleSink c) (cycleOrigin c) reason
            (on_world (fun w => set_inflight (delete i (inflight w)) w) s)).
Proof. intros Hc. unfold settle. rewrite Hc. reflexivity. Qed.

(** Every suspended cycle of a state after a step was suspended before, up
    to its phase, or has just been started by a tick or a call. *)
Lemma step_inflight (s : System) (e : Event) (s' : System) (c' : Cycle) :
  step s e = Some s' ->
  c' ∈ inflight (world s') ->
  (exists c, c ∈ inflight (world s) /\ cycleSink c' = cycleSink c
             /\ cycleOrigin c' = cycleOrigin c)
  \/ (exists k r, e = Tick k r /\ armed k s = true
                  /\ cycleSink c' = k /\ cycleOrigin c' = Scheduled)
  \/ (exists k r, e = Call k r /\ cycleSink c' = k /\ cycleOrigin c' = Manual).
Proof.
  destruct e as [k r|k r|i v|event d|name|cb|c]; simpl.
  - destruct (armed k s) eqn:Harmed; intros [= <-] Hin.
    destruct (launch_inflight k Scheduled r s) as [Heq|[ph Heq]];
      rewrite Heq in Hin.
    + left. by exists c'.
    + apply elem_of_app in Hin as [Hin|Hin]; [left; by exists c'|].
      apply list_elem_of_singleton in Hin. subst c'.
      right. left. by exists k, r.
  - intros [= <-] Hin.
    destruct (launch_inflight k Manual r s) as [Heq|[ph Heq]];
      rewrite Heq in Hin.
    + left. by exists c'.
    + apply elem_of_app in Hin as [Hin|Hin]; [left; by exists c'|].
      apply list_elem_of_singleton in Hin. subst c'.
      right. right. by exists k, r.
  - unfold settle.
    destruct (inflight (world s) !! i) as [c|] eqn:Hc; [|discriminate].
    assert (Hcin : c ∈ inflight (world s)) by (eapply list_elem_of_lookup_2, Hc).
    destruct (resume (cyclePhase c) v s) as [s1 [[ph|]|reason]] eqn:Hres;
      apply resume_frame in Hres as (_ & _ & Hin1 & _);
      intros [= <-] Hin; left.
    + simpl in Hin. rewrite Hin1 in Hin.
      apply list_elem_of_lookup in Hin as [j Hj].
      destruct (decide (i = j)) as [<-|Hne].
      * rewrite list_lookup_insert_eq in Hj
          by (by eapply lookup_lt_Some).
        injection Hj as <-. by exists c.
      * rewrite list_lookup_insert_ne in Hj by done.
        exists c'. split; [by eapply list_elem_of_lookup_2|done].
    + simpl in Hin. rewrite Hin1 in Hin.
      exists c'. split; [|done].
      by eapply list_elem_of_delete_inv.
    + destruct (rejected_frame (cycleSink c) (cycleOrigin c) reason
                  (on_world (fun w => set_inflight (delete i (inflight w)) w) s1))
        as (_ & _ & _ & Hin' & _).
      rewrite Hin' in Hin. simpl in Hin. rewrite Hin1 in Hin.
      exists c'. split; [|done].
      by eapply list_elem_of_delete_inv.
  - destruct (listening event s); intros [= <-] Hin; [|left; by exists c'].
    left. exists c'. split; [|done].
    destruct (String.eqb event "INTERACTION_CREATE"); [|done].
    revert Hin. unfold onInteractionCreate. eff_unfold.
    by destruct (bool_decide (type d = ApplicationCommand)
                 && bool_decide (dataId d ∈ commandIds (client (world s)))).
  - intros [= <-] Hin. left. by exists c'.
  - intros [= <-] Hin. left. by exists c'.
  - intros [= <-] Hin. left. by exists c'.
Qed.

(** ** Scheduling *)

Lemma influxBot_reachable : reachable influxBot.
Proof.
  eapply (reachable_new idleClient None (sampleOf 1000 500 0)
            {| influxDB := Some (influxEvery (Some 1000)); topgg := None |}).
  reflexivity.
Qed.

Lemma influxBotReporting_reachable : reachable influxBotReporting.
Proof.
  eapply reachable_step; [exact influxBot_reachable|].
  instantiate (1 := Tick InfluxDB (readingOf 3000 1500 2000)).
  reflexivity.
Qed.

(** C3, as stated, fails: the timer callback carries no overlap guard.  With
    the InfluxDB sink reporting every second, a second tick that fires while
    the cycle of the first still awaits [writeAPI.close()] starts a second
    cycle; two scheduled cycles of the sink are then in flight. *)
Lemma C3_overlap_counterexample :
  reachable influxBotReporting
  /\ inflightCount InfluxDB Scheduled influxBotReporting = 1%nat
  /\ (exists s' : System,
        step influxBotReporting (Tick InfluxDB (readingOf 5000 2500 3000))
        = Some s'
        /\ reachable s'
        /\ inflightCount InfluxDB Scheduled s' = 2%nat)
  /\ ¬ (forall (s : System) (k : Sink),
          reachable s -> (inflightCount k Scheduled s <= 1)%nat).
Proof.
  assert (Hstep : step influxBotReporting
                    (Tick InfluxDB (readingOf 5000 2500 3000))
                  = Some (launch InfluxDB Scheduled (readingOf 5000 2500 3000)
                            influxBotReporting)) by reflexivity.
  assert (Hreach : reachable (launch InfluxDB Scheduled
                                (readingOf 5000 2500 3000) influxBotReporting)).
  { eapply reachable_step; [exact influxBotReporting_reachable|exact Hstep]. }
  assert (Htwo : inflightCount InfluxDB Scheduled
                   (launch InfluxDB Scheduled (readingOf 5000 2500 3000)
                      influxBotReporting) = 2%nat) by reflexivity.
  split_and!.
  - exact influxBotReporting_reachable.
  - reflexivity.
  - eexists. split_and!; [exact Hstep|exact Hreach|exact Htwo].
  - intros Hguard. specialize (Hguard _ InfluxDB Hreach).
    rewrite Htwo in Hguard. lia.
Qed.

(** C3, amended: every tick of an armed timer calls the report method of its
    sink, however many cycles of that sink are still suspended; when the
    method reaches its first [await], the new cycle is added to the
    suspended ones, which are all kept, so the number of scheduled cycles in
    flight grows by one with each such tick. *)
Theorem C3_every_tick_starts_a_cycle (s : System) (k : Sink) (r : Reading) :
  reachable s -> armed k s = true -> pointError r = None ->
  exists (s' : System) (c : Cycle),
    step s (Tick k r) = Some s'
    /\ inflight (world s') = (inflight (world s) ++ [c])%list
    /\ cycleSink c = k /\ cycleOrigin c = Scheduled
    /\ inflightCount k Scheduled s' = S (inflightCount k Scheduled s).
Proof.
  intros Hreach Harmed Hpe.
  destruct (tick_starts_cycle k r s) as (s' & ph & Hstep & Hin);
    [by apply reachable_wellConfigured|done..|].
  eexists s', _. split_and!; [exact Hstep|exact Hin|done..|].
  rewrite (inflightCount_snoc k Scheduled s s' _ Hin). simpl.
  rewrite decide_True by done. lia.
Qed.

Lemma C3_witness :
  (reachable influxBotReporting
   /\ armed InfluxDB influxBotReporting = true
   /\ pointError (readingOf 5000 2500 3000) = None)
  /\ exists (s' : System) (c : Cycle),
       step influxBotReporting (Tick InfluxDB (readingOf 5000 2500 3000))
       = Some s'
       /\ inflight (world s') = (inflight (world influxBotReporting) ++ [c])%list
       /\ cycleSink c = InfluxDB /\ cycleOrigin c = Scheduled
       /\ inflightCount InfluxDB Scheduled s'
          = S (inflightCount InfluxDB Scheduled influxBotReporting).
Proof.
  assert (Harmed : armed InfluxDB influxBotReporting = true) by reflexivity.
  assert (Hpe : pointError (readingOf 5000 2500 3000) = None) by reflexivity.
  split; [split_and!; [exact influxBotReporting_reachable|done..]|].
  exact (C3_every_tick_starts_a_cycle influxBotReporting InfluxDB
           (readingOf 5000 2500 3000) influxBotReporting_reachable Harmed Hpe).
Defined.

(** C6: when a scheduled cycle fails, at an awaited promise that rejects or
    already in the synchronous part of the report method, the rejection is
    caught by the timer callback and printed with [console.error]; it is not
    handed to any caller, the armed timers are exactly those armed before
    (no event ever removes a timer), the other suspended cycles, of either
    sink, are untouched, and the next tick of every armed timer still calls
    its report method and starts a cycle. *)
Theorem C6_failed_cycle_keeps_schedule (s : System) (i : nat) (c : Cycle)
    (reason : string) :
  reachable s ->
  inflight (world s) !! i = Some c ->
  cycleOrigin c = Scheduled ->
  (exists s' : System,
     step s (Settle i (Rejected reason)) = Some s'
     /\ timers (world s') = timers (world s)
     /\ console (world s') = (console (world s) ++ [reason])%list
     /\ propagated (world s') = propagated (world s)
     /\ inflight (world s') = delete i (inflight (world s))
     /\ (forall k : Sink, armed k s' = armed k s)
     /\ (forall (k : Sink) (r : Reading),
           armed k s = true -> pointError r = None ->
           exists (s'' : System) (c' : Cycle),
             step s' (Tick k r) = Some s''
             /\ inflight (world s'') = (inflight (world s') ++ [c'])%list
             /\ cycleSink c' = k /\ cycleOrigin c' = Scheduled))
  /\ (forall (k : Sink) (r : Reading) (s1 : System) (early : string),
         armed k s = true ->
         report k r s = (s1, Throw early) ->
         exists s2 : System,
           step s (Tick k r) = Some s2
           /\ timers (world s2) = timers (world s)
           /\ console (world s2) = (console (world s) ++ [early])%list
           /\ propagated (world s2) = propagated (world s)
           /\ inflight (world s2) = inflight (world s))
  /\ (forall (e : Event) (s1 : System),
         step s e = Some s1 -> timers (world s1) = timers (world s)).
Proof.
  intros Hreach Hc Ho. split_and!.
  - exists (rejected (cycleSink c) (cycleOrigin c) reason
              (on_world (fun w => set_inflight (delete i (inflight w)) w) s)).
    assert (Hstep : step s (Settle i (Rejected reason))
                    = Some (rejected (cycleSink c) (cycleOrigin c) reason
                              (on_world (fun w =>
                                 set_inflight (delete i (inflight w)) w) s)))
      by (simpl; by apply settle_rejected).
    rewrite Ho in *. split_and!; try done.
    intros k r Harmed Hpe.
    destruct (tick_starts_cycle k r
                (rejected (cycleSink c) Scheduled reason
                   (on_world (fun w =>
                      set_inflight (delete i (inflight w)) w) s)))
      as (s'' & ph & Hs'' & Hin); [|done..|].
    { apply reachable_wellConfigured.
      eapply reachable_step; [exact Hreach|exact Hstep]. }
    eexists s'', _. split_and!; [exact Hs''|exact Hin|done..].
  - intros k r s1 early Harmed Hrep.
    exists (rejected k Scheduled early s1).
    simpl. rewrite Harmed. unfold launch. rewrite Hrep.
    apply report_frame in Hrep as (Hcfg & _ & Hin & Hcon & Hprop & _).
    unfold config in Hcfg. injection Hcfg as _ _ Ht _ _.
    simpl. rewrite Ht, Hin, Hcon, Hprop. split_and!; done.
  - intros e s1 Hstep. apply step_config in Hstep.
    unfold config in Hstep. by injection Hstep as _ _ Ht _ _.
Qed.

Lemma C6_witness :
  (reachable influxBotReporting
   /\ inflight (world influxBotReporting) !! 0%nat = Some influxBotCycle
   /\ cycleOrigin influxBotCycle = Scheduled)
  /\ exists s' : System,
       step influxBotReporting (Settle 0 (Rejected "ECONNREFUSED")) = Some s'
       /\ timers (world s') = timers (world influxBotReporting)
       /\ console (world s') = ["ECONNREFUSED"]
       /\ propagated (world s') = [].
Proof.
  assert (Hc : inflight (world influxBotReporting) !! 0%nat
               = Some influxBotCycle) by reflexivity.
  assert (Ho : cycleOrigin influxBotCycle = Scheduled) by reflexivity.
  split; [split_and!; [exact influxBotReporting_reachable|done..]|].
  destruct (proj1 (C6_failed_cycle_keeps_schedule influxBotReporting 0
                     influxBotCycle "ECONNREFUSED"
                     influxBotReporting_reachable Hc Ho))
    as (s' & Hstep & Ht & Hcon & Hprop & _).
  exists s'. split_and!; [exact Hstep|exact Ht|exact Hcon|exact Hprop].
Defined.

(** ** Manual reporting *)

Lemma timersOf_unarmed (k : Sink) (env_token : option string)
    (o : MetricsOptions) (iv : option Z) :
  configuredInterval k o = Some iv -> nullish iv 0 = 0 ->
  existsb (fun t => bool_decide (timerSink t = k))
          (timersOf (resolveOptions env_token o)) = false.
Proof.
  unfold configuredInterval, timersOf, resolveOptions, truthy_interval.
  destruct k; simpl.
  - destruct (influxDB o) as [i|]; simpl; [|discriminate].
    intros [= ->] ->. simpl.
    destruct (topgg o) as [t|]; simpl; [|done].
    by destruct (negb (nullish (topgg_reportInterval t) 0 =? 0)%Z).
  - destruct (topgg o) as [t|]; simpl; [|discriminate].
    intros [= ->] ->. simpl. rewrite app_nil_r.
    destruct (influxDB o) as [i|]; simpl; [|done].
    by destruct (negb (nullish (influx_reportInterval i) 0 =? 0)%Z).
Qed.

Lemma armed_config (k : Sink) (s s' : System) :
  config s' = config s -> armed k s' = armed k s.
Proof.
  unfold config, armed. intros Hcfg. injection Hcfg as _ _ Ht _ _.
  by rewrite Ht.
Qed.

(** While the timer of sink [k] is not armed, no scheduled cycle of [k] is
    ever suspended. *)
Lemma unarmed_never_scheduled (k : Sink) (es : list Event) :
  forall s s' : System,
    armed k s = false ->
    Forall (fun c => ¬ (cycleSink c = k /\ cycleOrigin c = Scheduled))
           (inflight (world s)) ->
    run s es = Some s' ->
    Forall (fun c => ¬ (cycleSink c = k /\ cycleOrigin c = Scheduled))
           (inflight (world s')).
Proof.
  induction es as [|e es IH]; intros s s' Harmed Hall; simpl.
  - by intros [= <-].
  - destruct (step s e) as [s1|] eqn:Hstep; [|discriminate].
    apply IH.
    + rewrite <- Harmed. apply armed_config. by eapply step_config.
    + apply Forall_forall. intros c' Hin.
      destruct (step_inflight s e s1 c' Hstep Hin)
        as [(c & Hcin & Hk & Ho)|[(k' & r & _ & Hk' & Hsink & _)
                                  |(k' & r & _ & _ & Ho)]].
      * rewrite Forall_forall in Hall. rewrite Hk, Ho. by apply Hall.
      * intros [Heq _]. congruence.
      * intros [_ Heq]. congruence.
Qed.

Lemma inflightCount_zero (k : Sink) (o : Origin) (s : System) :
  Forall (fun c => ¬ (cycleSink c = k /\ cycleOrigin c = o))
         (inflight (world s)) ->
  inflightCount k o s = 0%nat.
Proof.
  unfold inflightCount. induction 1 as [|c l Hc _ IH]; [done|].
  by rewrite filter_cons_False.
Qed.

(** Once every promise awaited by the most recently started cycle resolves,
    the cycle completes: it logs its success and leaves the other suspended
    cycles, the console and the rejections handed to callers as they were;
    a cycle that awaited the callback has written its points by then. *)
Lemma last_cycle_completes (s1 : System) (l : list Cycle) (c : Cycle) :
  inflight (world s1) = (l ++ [c])%list ->
  exists (s2 : System) (entry : LogEntry),
    run s1 (resolutions (cyclePhase c) (length l)) = Some s2
    /\ inflight (world s2) = l
    /\ logged (world s2) = (logged (world s1) ++ [entry])%list
    /\ logMessage entry = successMessage (cyclePhase c)
    /\ propagated (world s2) = propagated (world s1)
    /\ console (world s2) = console (world s1)
    /\ written (world s2)
       = (written (world s1)
            ++ match cyclePhase c with
               | AwaitCallback w built => [(w, built)]
               | _ => []
               end)%list
    /\ requested (world s2) = requested (world s1).
Proof.
  intros Hin.
  assert (Hlook : forall x : Cycle, (l ++ [x])%list !! length l = Some x)
    by (intros x; by apply list_lookup_middle).
  assert (Hdel : forall x : Cycle, delete (length l) (l ++ [x])%list = l)
    by (intros x; by rewrite delete_middle, app_nil_r).
  assert (Hins : forall x y : Cycle,
             <[length l := y]> (l ++ [x])%list = (l ++ [y])%list)
    by (intros x y; by rewrite insert_app_r_alt, Nat.sub_diag by lia).
  destruct c as [k o [w built|w points|req]]; simpl;
    unfold settle; rewrite Hin, Hlook; simpl;
    unfold writePoints, logger_log; eff_unfold; simpl.
  - rewrite Hin, Hins, Hlook. simpl.
    eexists _, _. split; [reflexivity|]. simpl.
    rewrite Hin, Hins, Hdel, !app_nil_r. split_and!; reflexivity.
  - eexists _, _. split; [reflexivity|]. simpl.
    rewrite Hin, Hdel, !app_nil_r. split_and!; reflexivity.
  - eexists _, _. split; [reflexivity|]. simpl.
    rewrite Hin, Hdel, !app_nil_r. split_and!; reflexivity.
Qed.

(** What a call of a configured sink's report method by some caller comes
    to.  When a [Point] method throws, the call is rejected with that error
    and nothing is written; otherwise a cycle starts, and once the promises
    it awaits resolve it has handed its payload to the transport and logged
    its success. *)
Lemma manual_call_outcome (k : Sink) (r : Reading) (s : System) :
  match k with
  | InfluxDB => exists i cl, optInfluxDB (options (this s)) = Some i
                             /\ influxClient (this s) = Some cl
  | Topgg => exists t, optTopgg (options (this s)) = Some t
                       /\ truthy_string (topggToken t) = true
  end ->
  match k, pointError r with
  | InfluxDB, Some e =>
      exists s1 : System,
        step s (Call k r) = Some s1
        /\ propagated (world s1) = (propagated (world s) ++ [(k, e)])%list
        /\ inflight (world s1) = inflight (world s)
        /\ written (world s1) = written (world s)
        /\ requested (world s1) = requested (world s)
        /\ logged (world s1) = logged (world s)
        /\ console (world s1) = console (world s)
  | _, _ =>
      exists (s1 : System) (ph : Phase) (s2 : System) (entry : LogEntry),
        step s (Call k r) = Some s1
        /\ inflight (world s1)
           = (inflight (world s)
                ++ [ {| cycleSink := k; cycleOrigin := Manual;
                        cyclePhase := ph |} ])%list
        /\ propagated (world s1) = propagated (world s)
        /\ run s1 (resolutions ph (length (inflight (world s)))) = Some s2
        /\ inflight (world s2) = inflight (world s)
        /\ logged (world s2) = (logged (world s) ++ [entry])%list
        /\ logMessage entry = successMessage ph
        /\ propagated (world s2) = propagated (world s)
        /\ console (world s2) = console (world s)
        /\ match k with
           | InfluxDB =>
               exists i : InfluxDBResolved,
                 optInfluxDB (options (this s)) = Some i
                 /\ phasePoints ph = builtPoints (collectStats s r)
                 /\ written (world s2)
                    = (written (world s)
                         ++ [(writeApiOf i,
                              builtPoints (collectStats s r))])%list
                 /\ requested (world s2) = requested (world s)
           | Topgg =>
               exists t : TopggResolved,
                 optTopgg (options (this s)) = Some t
                 /\ requested (world s2)
                    = (requested (world s) ++ [topggRequestOf t s])%list
                 /\ written (world s2) = written (world s)
           end
  end.
Proof.
  intros Hcfg.
  assert (Hdone : forall (s0 : System) (ph : Phase),
             report k r s = (s0, Normal ph) ->
             exists (s1 : System) (ph' : Phase) (s2 : System)
                    (entry : LogEntry),
               step s (Call k r) = Some s1
               /\ ph' = ph
               /\ inflight (world s1)
                  = (inflight (world s)
                       ++ [ {| cycleSink := k; cycleOrigin := Manual;
                               cyclePhase := ph |} ])%list
               /\ propagated (world s1) = propagated (world s)
               /\ run s1 (resolutions ph (length (inflight (world s))))
                  = Some s2
               /\ inflight (world s2) = inflight (world s)
               /\ logged (world s2) = (logged (world s) ++ [entry])%list
               /\ logMessage entry = successMessage ph
               /\ propagated (world s2) = propagated (world s)
               /\ console (world s2) = console (world s)
               /\ written (world s2)
                  = (written (world s0)
                       ++ match ph with
                          | AwaitCallback w built => [(w, built)]
                          | _ => []
                          end)%list
               /\ requested (world s2) = requested (world s0)).
  { intros s0 ph Hrep.
    pose proof (report_frame k r s s0 _ Hrep)
      as (_ & _ & Hin & Hcon & Hprop & Hlog & _).
    edestruct (last_cycle_completes
                 (on_world (fun w =>
                    set_inflight (inflight w ++ [ {| cycleSink := k;
                      cycleOrigin := Manual; cyclePhase := ph |} ]) w) s0)
                 (inflight (world s)))
      as (s2 & entry & Hrun2 & Hin2 & Hlog2 & Hmsg & Hprop2 & Hcon2
          & Hw2 & Hr2).
    { simpl. by rewrite Hin. }
    exists (on_world (fun w =>
              set_inflight (inflight w ++ [ {| cycleSink := k;
                cycleOrigin := Manual; cyclePhase := ph |} ]) w) s0),
           ph, s2, entry.
    split; [simpl; unfold launch; by rewrite Hrep|].
    simpl in *. rewrite Hin, Hprop2, Hcon2, Hlog2, Hlog, Hcon, Hprop.
    split_and!; done. }
  destruct k; simpl.
  - destruct Hcfg as (i & cl & Hopt & Hcl).
    pose proof (reportInfluxDBMetrics_configured r s i cl Hopt Hcl) as Hrep.
    destruct (pointError r) as [e|] eqn:Hpe.
    + exists (launch InfluxDB Manual r s). unfold launch. simpl.
      rewrite Hrep. simpl. split_and!; reflexivity.
    + destruct (_influxDBCallback (this s)) as [cb|] eqn:Hcb; simpl in Hrep.
      * destruct (Hdone _ _ Hrep)
          as (s1 & ph & s2 & entry & H1 & -> & H2 & H3 & H4 & H5 & H6 & H7
              & H8 & H9 & H10 & H11).
        exists s1, (AwaitCallback (writeApiOf i)
                      (builtPoints (collectStats s r))), s2, entry.
        split_and!; try done. exists i. split_and!; done.
      * destruct (Hdone _ _ Hrep)
          as (s1 & ph & s2 & entry & H1 & -> & H2 & H3 & H4 & H5 & H6 & H7
              & H8 & H9 & H10 & H11).
        exists s1, (AwaitClose (writeApiOf i)
                      (builtPoints (collectStats s r))), s2, entry.
        split_and!; try done. exists i. simpl in *.
        rewrite app_nil_r in H10. split_and!; done.
  - destruct Hcfg as (t & Hopt & Htok).
    pose proof (reportTopggMetrics_configured s t Hopt) as Hrep.
    rewrite Htok in Hrep. simpl in Hrep.
    assert (Hrep' : report Topgg r s
                    = (on_world (fun w =>
                         set_requested
                           (requested w ++ [topggRequestOf t s]) w) s,
                       Normal (AwaitTopgg (topggRequestOf t s))))
      by exact Hrep.
    destruct (Hdone _ _ Hrep')
      as (s1 & ph & s2 & entry & H1 & -> & H2 & H3 & H4 & H5 & H6 & H7
          & H8 & H9 & H10 & H11).
    assert (Hgoal :
      exists (s1 : System) (ph : Phase) (s2 : System) (entry : LogEntry),
        step s (Call Topgg r) = Some s1
        /\ inflight (world s1)
           = (inflight (world s)
                ++ [ {| cycleSink := Topgg; cycleOrigin := Manual;
                        cyclePhase := ph |} ])%list
        /\ propagated (world s1) = propagated (world s)
        /\ run s1 (resolutions ph (length (inflight (world s)))) = Some s2
        /\ inflight (world s2) = inflight (world s)
        /\ logged (world s2) = (logged (world s) ++ [entry])%list
        /\ logMessage entry = successMessage ph
        /\ propagated (world s2) = propagated (world s)
        /\ console (world s2) = console (world s)
        /\ exists t : TopggResolved,
             optTopgg (options (this s)) = Some t
             /\ requested (world s2)
                = (requested (world s) ++ [topggRequestOf t s])%list
             /\ written (world s2) = written (world s)).
    { exists s1, (AwaitTopgg (topggRequestOf t s)), s2, entry.
      split_and!; try done. exists t. simpl in *.
      rewrite app_nil_r in H10. split_and!; done. }
    by destruct (pointError r).
Qed.

(** C7, the call that fails: a controller constructed without an InfluxDB
    interval arms no timer and has its options defined, yet the report
    requested in the millisecond of its construction divides by a time
    difference of zero, [Point.floatField] throws for the infinite CPU
    figure, and the caller receives the rejection: no cycle starts, nothing
    is written and no success is logged. *)
Lemma C7_manual_report_fails_in_same_millisecond :
  new_Metrics idleClient None (sampleOf 1000 500 0) manualOptions
  = (manualBot, Normal tt)
  /\ configuredInterval InfluxDB manualOptions = Some None
  /\ timers (world manualBot) = []
  /\ is_Some (optInfluxDB (options (this manualBot)))
  /\ is_Some (influxClient (this manualBot))
  /\ time (_lastCPUMetrics (this manualBot)) = now sameMillisecond
  /\ cpu (collectStats manualBot sameMillisecond) = S754_infinity false
  /\ isFinite (cpu (collectStats manualBot sameMillisecond)) = false
  /\ exists s1 : System,
       step manualBot (Call InfluxDB sameMillisecond) = Some s1
       /\ propagated (world s1)
          = [(InfluxDB, "invalid float value for field 'cpu': 'Infinity'!")]
       /\ inflight (world s1) = []
       /\ written (world s1) = []
       /\ logged (world s1) = logged (world manualBot).
Proof.
  split_and!; try (vm_compute; reflexivity); try (by eexists).
Qed.

(** C7: for a sink configured with [reportInterval] 0 or without one, the
    constructor arms no timer; whatever happens afterwards the sink's timer
    never fires (no tick of it can occur) and no scheduled cycle of the sink
    is ever in flight.  A manual call of the sink's report method passes
    its guards all the same.  Unless a [Point] method throws while the
    points are built, it starts a cycle and hands no rejection to the
    caller, and when the promises the cycle awaits resolve the cycle has
    handed its payload to the transport (the points built from the
    statistics of the call, or the Top.gg request) and completes with its
    success message.  When a [Point] method throws, the caller receives that
    error and nothing is written or logged. *)
Theorem C7_zero_interval_manual_only (c : Client) (env_token : option string)
    (t0 : CPUMetrics) (o : MetricsOptions) (s : System) (k : Sink)
    (iv : option Z) :
  new_Metrics c env_token t0 o = (s, Normal tt) ->
  configuredInterval k o = Some iv ->
  nullish iv 0 = 0 ->
  armed k s = false
  /\ (forall (es : list Event) (s' : System),
         run s es = Some s' ->
         armed k s' = false
         /\ (forall r : Reading, step s' (Tick k r) = None)
         /\ inflightCount k Scheduled s' = 0%nat)
  /\ (forall (es : list Event) (s' : System) (r : Reading),
         run s es = Some s' ->
         match k, pointError r with
         | InfluxDB, Some e =>
             exists s1 : System,
               step s' (Call k r) = Some s1
               /\ propagated (world s1)
                  = (propagated (world s') ++ [(k, e)])%list
               /\ inflight (world s1) = inflight (world s')
               /\ written (world s1) = written (world s')
               /\ requested (world s1) = requested (world s')
               /\ logged (world s1) = logged (world s')
               /\ console (world s1) = console (world s')
         | _, _ =>
             exists (s1 : System) (ph : Phase) (s2 : System)
                    (entry : LogEntry),
               step s' (Call k r) = Some s1
               /\ inflight (world s1)
                  = (inflight (world s')
                       ++ [ {| cycleSink := k; cycleOrigin := Manual;
                               cyclePhase := ph |} ])%list
               /\ propagated (world s1) = propagated (world s')
               /\ run s1 (resolutions ph (length (inflight (world s'))))
                  = Some s2
               /\ inflight (world s2) = inflight (world s')
               /\ logged (world s2) = (logged (world s') ++ [entry])%list
               /\ logMessage entry = successMessage ph
               /\ propagated (world s2) = propagated (world s')
               /\ console (world s2) = console (world s')
               /\ match k with
                  | InfluxDB =>
                      exists i : InfluxDBResolved,
                        optInfluxDB (options (this s')) = Some i
                        /\ phasePoints ph = builtPoints (collectStats s' r)
                        /\ written (world s2)
                           = (written (world s')
                                ++ [(writeApiOf i,
                                     builtPoints (collectStats s' r))])%list
                        /\ requested (world s2) = requested (world s')
                  | Topgg =>
                      exists t : TopggResolved,
                        optTopgg (options (this s')) = Some t
                        /\ requested (world s2)
                           = (requested (world s')
                                ++ [topggRequestOf t s'])%list
                        /\ written (world s2) = written (world s')
                  end
         end).
Proof.
  intros Hnew Hiv Hzero.
  pose proof (new_Metrics_returns _ _ _ _ _ Hnew)
    as (Hopts & Hwf & _ & Hnone & _).
  assert (Hunarmed : armed k s = false).
  { unfold armed. destruct Hwf as (Ht & _). rewrite Ht, Hopts.
    by eapply timersOf_unarmed. }
  assert (Hreach : reachable s) by (by eapply reachable_new).
  split_and!.
  - exact Hunarmed.
  - intros es s' Hrun.
    assert (Harmed' : armed k s' = false).
    { rewrite <- Hunarmed. apply armed_config. by eapply run_config. }
    split_and!; [done|by intros r; simpl; rewrite Harmed'|].
    apply inflightCount_zero.
    eapply unarmed_never_scheduled; [exact Hunarmed| |exact Hrun].
    rewrite Hnone. constructor.
  - intros es s' r Hrun.
    assert (Hcfg : config s' = config s) by (by eapply run_config).
    pose proof (reachable_wellConfigured s'
                  (reachable_run es s s' Hreach Hrun)) as Hwf'.
    assert (Hopts' : options (this s') = resolveOptions env_token o).
    { unfold config in Hcfg. injection Hcfg as -> _ _ _ _. exact Hopts. }
    apply manual_call_outcome.
    destruct Hwf' as (_ & _ & Hinflux & Htopgg).
    unfold configuredInterval in Hiv. rewrite Hopts' in *.
    destruct k; simpl in *.
    + destruct (influxDB o) as [i|]; [|discriminate]. eauto.
    + destruct (topgg o) as [t|]; [|discriminate]. eauto.
Qed.

Lemma C7_witness :
  (new_Metrics idleClient None (sampleOf 1000 500 0) manualOptions
   = (manualBot, Normal tt)
   /\ configuredInterval InfluxDB manualOptions = Some None
   /\ nullish None 0 = 0)
  /\ armed InfluxDB manualBot = false
  /\ (forall r : Reading, step manualBot (Tick InfluxDB r) = None)
  /\ exists (s1 : System) (ph : Phase) (s2 : System) (entry : LogEntry),
       step manualBot (Call InfluxDB (readingOf 3000 1500 2000)) = Some s1
       /\ inflight (world s1)
          = [ {| cycleSink := InfluxDB; cycleOrigin := Manual;
                 cyclePhase := ph |} ]
       /\ propagated (world s1) = []
       /\ run s1 (resolutions ph 0) = Some s2
       /\ inflight (world s2) = []
       /\ logged (world s2) = (logged (world manualBot) ++ [entry])%list
       /\ logMessage entry = successMessage ph
       /\ propagated (world s2) = []
       /\ console (world s2) = []
       /\ exists i : InfluxDBResolved,
            optInfluxDB (options (this manualBot)) = Some i
            /\ phasePoints ph
               = builtPoints
                   (collectStats manualBot (readingOf 3000 1500 2000))
            /\ written (world s2)
               = [(writeApiOf i,
                   builtPoints
                     (collectStats manualBot (readingOf 3000 1500 2000)))]
            /\ requested (world s2) = [].
Proof.
  assert (Hnew : new_Metrics idleClient None (sampleOf 1000 500 0)
                   manualOptions
                 = (manualBot, Normal tt)) by reflexivity.
  assert (Hiv : configuredInterval InfluxDB manualOptions = Some None)
    by reflexivity.
  assert (Hzero : nullish None 0 = 0) by reflexivity.
  split; [by split_and!|].
  destruct (C7_zero_interval_manual_only _ _ _ _ _ InfluxDB None
              Hnew Hiv Hzero) as (Harmed & Hnever & Hcall).
  split; [exact Harmed|].
  split; [exact (proj1 (proj2 (Hnever [] manualBot eq_refl)))|].
  exact (Hcall [] manualBot (readingOf 3000 1500 2000) eq_refl).
Defined.

(** ** A Top.gg sink without a token *)

(** C4, as stated, fails: the constructor sets up the InfluxDB sink before
    it looks at the Top.gg token.  With both sinks on a schedule and no
    Top.gg token anywhere, the constructor throws, but the InfluxDB timer is
    armed by then, it stays armed, and its ticks start report cycles. *)
Lemma C4_timer_armed_before_throw :
  topgg_token (topggEvery (Some 60000) None) = None
  /\ new_Metrics idleClient None (sampleOf 1000 500 0) tokenlessOptions
     = (tokenlessBot, Throw "Top.gg API token is undefined")
  /\ timers (world tokenlessBot)
     = [ {| timerSink := InfluxDB; timerInterval := 1000;
            timerUnref := true |} ]
  /\ step tokenlessBot (Tick InfluxDB (readingOf 3000 1500 2000))
     = Some (launch InfluxDB Scheduled (readingOf 3000 1500 2000)
               tokenlessBot)
  /\ inflightCount InfluxDB Scheduled
       (launch InfluxDB Scheduled (readingOf 3000 1500 2000) tokenlessBot)
     = 1%nat.
Proof. split_and!; reflexivity. Qed.

(** C4, amended: when the Top.gg sink is enabled and neither its options
    nor the environment hold a token, the constructor throws
    "Top.gg API token is undefined" before it arms the Top.gg timer,
    registers the gateway listener or logs anything, and before any report
    cycle has started; the only timer that can be armed at that point is the
    one of the InfluxDB sink, which the constructor sets up first. *)
Theorem C4_missing_token_fails_fast (c : Client) (t0 : CPUMetrics)
    (o : MetricsOptions) (t : TopggOptions) :
  topgg o = Some t ->
  topgg_token t = None ->
  exists s : System,
    new_Metrics c None t0 o = (s, Throw "Top.gg API token is undefined")
    /\ armed Topgg s = false
    /\ timers (world s)
       = timersOf {| optInfluxDB := optInfluxDB (resolveOptions None o);
                     optTopgg := None |}
    /\ inflight (world s) = []
    /\ listeners (world s) = []
    /\ logged (world s) = [].
Proof.
  intros Ht Htok.
  unfold new_Metrics, constructor, timersOf, setInterval, gateway_on,
    logger_log, resolveOptions, armed.
  eff_unfold. simpl. rewrite Ht. simpl. rewrite Htok. simpl.
  destruct (influxDB o) as [i|]; simpl;
    [destruct (truthy_interval (nullish (influx_reportInterval i) 0))|];
    simpl; eexists; split_and!; reflexivity.
Qed.

Lemma C4_witness :
  (topgg tokenlessOptions = Some (topggEvery (Some 60000) None)
   /\ topgg_token (topggEvery (Some 60000) None) = None)
  /\ exists s : System,
       new_Metrics idleClient None (sampleOf 1000 500 0) tokenlessOptions
       = (s, Throw "Top.gg API token is undefined")
       /\ armed Topgg s = false.
Proof.
  assert (Ht : topgg tokenlessOptions = Some (topggEvery (Some 60000) None))
    by reflexivity.
  assert (Htok : topgg_token (topggEvery (Some 60000) None) = None)
    by reflexivity.
  split; [by split|].
  destruct (C4_missing_token_fails_fast idleClient (sampleOf 1000 500 0)
              tokenlessOptions _ Ht Htok) as (s & Hnew & Harmed & _).
  exists s. by split.
Defined.

(** ** The CPU figure *)

(** C2: the CPU percentage that a report cycle puts in the [cpu] field of
    its [process] point is
    [100 * ((usage.system - last.system) + (usage.user - last.user))
       / ((time - last.time) * 1000)],
    computed in binary64 in this order, for the retained sample [last] and
    the fresh one (the equation needs no assumption on the two times: when
    they are equal both sides are the same infinity or NaN).  For the
    samples [{user: 1000, system: 500, time: 0}] and
    [{user: 3000, system: 1500, time: 2000}] the result is the binary64
    number written [0.15]: the quotient [15 / 100], within half a unit in
    the last place (2^-56) of the rational 3/20.  The build under [dist/]
    computes the same figure. *)
Theorem C2_cpu_percentage (s : System) (r : Reading) (i : InfluxDBResolved)
    (cl : string * string) :
  optInfluxDB (options (this s)) = Some i ->
  influxClient (this s) = Some cl ->
  pointError r = None ->
  let last := _lastCPUMetrics (this s) in
  (exists (s1 : System) (ph : Phase),
     reportInfluxDBMetrics r s = (s1, Normal ph)
     /\ (head (phasePoints ph) ≫= floatFieldOf "cpu")
        = Some (num_div
                  (num_mul (num_of_Z 100)
                     (num_add
                        (num_sub (system (cpuUsage r)) (system (usage last)))
                        (num_sub (user (cpuUsage r)) (user (usage last)))))
                  (num_mul (num_sub (now r) (time last)) (num_of_Z 1000))))
  /\ (exists (s1 : System) (collected : Dist.Collected),
        Dist.reportInfluxDBMetrics r s = (s1, Normal collected)
        /\ Dist.cpu collected
           = num_div
               (num_mul (num_of_Z 100)
                  (num_add
                     (num_sub (system (cpuUsage r)) (system (usage last)))
                     (num_sub (user (cpuUsage r)) (user (usage last)))))
               (num_mul (num_sub (now r) (time last)) (num_of_Z 1000)))
  /\ cpuPercent (sampleOf 1000 500 0) (sampleOf 3000 1500 2000) = double_0_15
  /\ double_0_15 = num_div (num_of_Z 15) (num_of_Z 100)
  /\ (exists q : Q, num_to_Q double_0_15 = Some q
                    /\ (Qabs (q - (3 # 20)) <= 1 # 72057594037927936)%Q).
Proof.
  intros Hopt Hcl Hpe last. split_and!.
  - rewrite (reportInfluxDBMetrics_configured r s i cl Hopt Hcl), Hpe.
    destruct (_influxDBCallback (this s)); eexists _, _;
      (split; [reflexivity|]); reflexivity.
  - unfold Dist.reportInfluxDBMetrics. eff_unfold. rewrite Hopt, Hcl.
    eexists _, _. split; reflexivity.
  - vm_compute. reflexivity.
  - vm_compute. reflexivity.
  - eexists. split; [reflexivity|]. vm_compute. discriminate.
Qed.

Lemma C2_witness :
  (optInfluxDB (options (this influxBot)) = Some influxBotOptions
   /\ influxClient (this influxBot) = Some ("secret", "http://localhost:8086")
   /\ pointError (readingOf 3000 1500 2000) = None)
  /\ exists (s1 : System) (ph : Phase),
       reportInfluxDBMetrics (readingOf 3000 1500 2000) influxBot
       = (s1, Normal ph)
       /\ (head (phasePoints ph) ≫= floatFieldOf "cpu") = Some double_0_15.
Proof.
  assert (Hopt : optInfluxDB (options (this influxBot))
                 = Some influxBotOptions) by reflexivity.
  assert (Hcl : influxClient (this influxBot)
                = Some ("secret", "http://localhost:8086")) by reflexivity.
  assert (Hpe : pointError (readingOf 3000 1500 2000) = None) by reflexivity.
  split; [by split_and!|].
  destruct (proj1 (C2_cpu_percentage influxBot (readingOf 3000 1500 2000)
                     influxBotOptions _ Hopt Hcl Hpe))
    as (s1 & ph & Hrep & Hcpu).
  exists s1, ph. split; [exact Hrep|].
  rewrite Hcpu. vm_compute. reflexivity.
Defined.

(** ** The points of the error tally *)

(** C1 does not hold of the code: the loop that fills [commandErrorPoints]
    iterates over [stats.commands], not over [stats.commandErrors].  After
    three invocations of [ping] and one error of [oops] the invocation tally
    is [{ping: 3}] and the error tally is [{oops: 1}]; the batch written by
    a report cycle carries a [commandError] point for [ping] with count 3
    and none for [oops].  In every state the [commandError] points are those
    of the invocation tally. *)
Theorem C1_commandError_points_follow_command_tally :
  run influxBot oopsEvents = Some oopsBot
  /\ _commands (this oopsBot) = [("ping", Num 3)]
  /\ _commandErrors (this oopsBot) = [("oops", Num 1)]
  /\ entries (_commands (this oopsBot)) = [("ping", Num 3)]
  /\ entries (_commandErrors (this oopsBot)) = [("oops", Num 1)]
  /\ written (world (launch InfluxDB Manual (readingOf 3000 1500 2000) oopsBot))
     = [ (writeApiOf influxBotOptions,
          builtPoints (collectStats oopsBot (readingOf 3000 1500 2000))) ]
  /\ countEntries "commandError"
       (builtPoints (collectStats oopsBot (readingOf 3000 1500 2000)))
     = [ ([("name", "ping")], [intField "count" 3]) ]
  /\ (forall (s : System) (r : Reading),
         commandErrorPoints (collectStats s r)
         = tallyPoints "commandError" "name" (_commands (this s))).
Proof.
  split_and!; [vm_compute; reflexivity..|].
  intros s r. reflexivity.
Qed.

(** * Further properties of the controller *)

(** ** The constructor *)

Lemma new_Metrics_completion (c : Client) (env_token : option string)
    (t0 : CPUMetrics) (o : MetricsOptions) :
  (new_Metrics c env_token t0 o).2
  = match optTopgg (resolveOptions env_token o) with
    | Some t =>
        if truthy_string (topggToken t) then Normal tt
        else Throw "Top.gg API token is undefined"
    | None => Normal tt
    end.
Proof.
  unfold new_Metrics, constructor, setInterval, gateway_on, logger_log,
    resolveOptions.
  eff_unfold. simpl.
  destruct (influxDB o) as [i|], (topgg o) as [t|]; simpl;
    repeat match goal with
      | |- context [truthy_interval ?x] => destruct (truthy_interval x)
      | |- context [truthy_string ?x] => destruct (truthy_string x)
      end; reflexivity.
Qed.

Lemma truthy_string_false (s : option string) :
  truthy_string s = false <-> s = None \/ s = Some "".
Proof.
  destruct s as [[|a str]|]; simpl; split; try done.
  - by right.
  - intros [|]; done.
  - by left.
Qed.

(** X1: the constructor either returns or throws
    "Top.gg API token is undefined", and it throws exactly when the Top.gg
    sink is configured and the token it resolves is absent or empty.  The
    token of the options shadows [TOPGG_TOKEN] whenever it is a string: an
    empty token in the options makes the constructor throw whatever the
    environment holds, and a non-empty one makes it return. *)
Theorem X1_constructor_throws_iff_no_token (c : Client)
    (env_token : option string) (t0 : CPUMetrics) (o : MetricsOptions) :
  ((new_Metrics c env_token t0 o).2 = Normal tt
   \/ (new_Metrics c env_token t0 o).2 = Throw "Top.gg API token is undefined")
  /\ ((new_Metrics c env_token t0 o).2 = Throw "Top.gg API token is undefined"
      <-> exists t : TopggOptions,
            topgg o = Some t
            /\ match topgg_token t with
               | Some tok => tok = ""
               | None => env_token = None \/ env_token = Some ""
               end)
  /\ (forall t : TopggOptions,
         topgg o = Some t -> topgg_token t = Some "" ->
         (new_Metrics c env_token t0 o).2
         = Throw "Top.gg API token is undefined")
  /\ (forall (t : TopggOptions) (tok : string),
         topgg o = Some t -> topgg_token t = Some tok -> tok ≠ "" ->
         (new_Metrics c env_token t0 o).2 = Normal tt).
Proof.
  rewrite new_Metrics_completion. unfold resolveOptions. simpl.
  destruct (topgg o) as [t|]; simpl.
  - pose proof (truthy_string_false
                  match topgg_token t with
                  | Some tok => Some tok
                  | None => env_token
                  end) as Hfalse.
    destruct (truthy_string
                match topgg_token t with
                | Some tok => Some tok
                | None => env_token
                end) eqn:Htruthy.
    + assert (Hnot : ¬ match topgg_token t with
                       | Some tok => tok = ""
                       | None => env_token = None \/ env_token = Some ""
                       end).
      { intros Hm. enough (true = false) by done. apply Hfalse.
        destruct (topgg_token t) as [tok|]; [right; by subst|done]. }
      split_and!.
      * by left.
      * split; [done|]. intros (t' & [= <-] & Hm). done.
      * intros t' [= <-] Htok. exfalso. apply Hnot. by rewrite Htok.
      * done.
    + assert (Hm : match topgg_token t with
                   | Some tok => tok = ""
                   | None => env_token = None \/ env_token = Some ""
                   end).
      { destruct (proj1 Hfalse eq_refl) as [Hn|Hs];
          destruct (topgg_token t) as [tok|]; try done;
          [by left|by injection Hs|by right]. }
      split_and!.
      * by right.
      * split; [|done]. intros _. by exists t.
      * done.
      * intros t' tok [= <-] Htok Hne. rewrite Htok in Hm. done.
  - split_and!; [by left| |done|done].
    split; [done|]. by intros (t' & ? & _).
Qed.

Lemma truthy_interval_true (ms : Z) : truthy_interval ms = true <-> ms ≠ 0.
Proof.
  unfold truthy_interval. rewrite negb_true_iff. apply Z.eqb_neq.
Qed.

Lemma armed_timersOf (k : Sink) (env_token : option string)
    (o : MetricsOptions) :
  existsb (fun t => bool_decide (timerSink t = k))
          (timersOf (resolveOptions env_token o)) = true
  <-> exists iv : option Z,
        configuredInterval k o = Some iv /\ nullish iv 0 ≠ 0.
Proof.
  unfold timersOf, resolveOptions, configuredInterval. simpl.
  destruct k, (influxDB o) as [i|], (topgg o) as [t|]; simpl;
    repeat match goal with
      | |- context [truthy_interval ?x] =>
          let H := fresh "Hz" in
          destruct (truthy_interval x) eqn:H;
          [apply truthy_interval_true in H
          |apply not_true_iff_false in H; rewrite truthy_interval_true in H];
          simpl
      end.
  all: split.
  all: try (intros (iv & [= <-] & Hne); done).
  all: try (intros (iv & [=] & _)).
  all: try (intros _; eexists; split; [reflexivity|done]).
  all: try done.
Qed.

Lemma timerDelay_cases (ms : Z) :
  (1 <= ms <= 2147483647 -> timerDelay ms = ms)
  /\ (ms < 1 \/ 2147483647 < ms -> timerDelay ms = 1).
Proof.
  unfold timerDelay. split.
  - intros [Hlo Hhi].
    apply Z.leb_le in Hlo. apply Z.leb_le in Hhi. by rewrite Hlo, Hhi.
  - intros [Hlo|Hhi].
    + apply Z.leb_gt in Hlo. by rewrite Hlo.
    + apply Z.leb_gt in Hhi. rewrite Hhi. by rewrite andb_false_r.
Qed.

Lemma elem_of_timersOf (env_token : option string) (o : MetricsOptions)
    (t : Timer) :
  t ∈ timersOf (resolveOptions env_token o) ->
  timerUnref t = true
  /\ exists ms : Z,
       configuredInterval (timerSink t) o = Some (Some ms)
       /\ ms ≠ 0
       /\ timerInterval t = timerDelay ms.
Proof.
  unfold timersOf, resolveOptions, configuredInterval. simpl.
  intros [Hin|Hin]%elem_of_app.
  - destruct (influxDB o) as [i|]; simpl in *; [|by apply elem_of_nil in Hin].
    destruct (truthy_interval (nullish (influx_reportInterval i) 0)) eqn:Hz;
      [|by apply elem_of_nil in Hin].
    apply truthy_interval_true in Hz.
    apply list_elem_of_singleton in Hin as ->. simpl.
    destruct (influx_reportInterval i) as [ms|]; simpl in *; [|done].
    split; [done|]. by exists ms.
  - destruct (topgg o) as [tg|]; simpl in *; [|by apply elem_of_nil in Hin].
    destruct (truthy_interval (nullish (topgg_reportInterval tg) 0)) eqn:Hz;
      [|by apply elem_of_nil in Hin].
    apply truthy_interval_true in Hz.
    apply list_elem_of_singleton in Hin as ->. simpl.
    destruct (topgg_reportInterval tg) as [ms|]; simpl in *; [|done].
    split; [done|]. by exists ms.
Qed.

Lemma timersOf_one_per_sink (opts : ResolvedOptions) (k : Sink) :
  (length (filter (fun t => timerSink t = k) (timersOf opts)) <= 1)%nat.
Proof.
  unfold timersOf. rewrite filter_app, length_app.
  destruct (optInfluxDB opts) as [i|], (optTopgg opts) as [t|];
    repeat match goal with
      | |- context [truthy_interval ?x] => destruct (truthy_interval x)
      end;
    rewrite ?filter_cons, ?filter_nil; simpl;
    repeat case_decide; simpl; try lia; destruct k; done.
Qed.

(** X2: when the constructor returns, the timer of a sink is armed exactly
    when the sink is configured with an interval other than 0 (a negative
    interval arms it too).  Every armed timer is unreferenced and runs with
    the delay that Node.js gives the sink's configured interval: the
    interval itself when it lies between 1 and 2^31 - 1 ms, and 1 ms when it
    is negative or larger.  No sink has two timers. *)
Theorem X2_timers_follow_intervals (c : Client) (env_token : option string)
    (t0 : CPUMetrics) (o : MetricsOptions) (s : System) :
  new_Metrics c env_token t0 o = (s, Normal tt) ->
  (forall k : Sink,
      armed k s = true
      <-> exists iv : option Z,
            configuredInterval k o = Some iv /\ nullish iv 0 ≠ 0)
  /\ (forall t : Timer,
         t ∈ timers (world s) ->
         timerUnref t = true
         /\ exists ms : Z,
              configuredInterval (timerSink t) o = Some (Some ms)
              /\ ms ≠ 0
              /\ timerInterval t = timerDelay ms
              /\ (1 <= ms <= 2147483647 -> timerInterval t = ms)
              /\ (ms < 1 \/ 2147483647 < ms -> timerInterval t = 1))
  /\ (forall k : Sink,
         (length (filter (fun t => timerSink t = k) (timers (world s))) <= 1)%nat).
Proof.
  intros Hnew.
  apply new_Metrics_returns in Hnew as (Hopts & (Htimers & _) & _).
  unfold armed. rewrite Htimers, Hopts. split_and!.
  - intros k. apply armed_timersOf.
  - intros t Hin.
    apply elem_of_timersOf in Hin as (Hunref & ms & Hcfg & Hne & Hdelay).
    split; [done|]. exists ms. rewrite Hdelay.
    destruct (timerDelay_cases ms) as [Hin Hout]. split_and!; done.
  - intros k. apply timersOf_one_per_sink.
Qed.

Lemma X2_witness :
  new_Metrics idleClient None (sampleOf 1000 500 0)
    {| influxDB := Some (influxEvery (Some (-5)));
       topgg := Some (topggEvery (Some 60000) (Some "tok")) |}
  = ((new_Metrics idleClient None (sampleOf 1000 500 0)
        {| influxDB := Some (influxEvery (Some (-5)));
           topgg := Some (topggEvery (Some 60000) (Some "tok")) |}).1,
     Normal tt)
  /\ timers
       (world
          (new_Metrics idleClient None (sampleOf 1000 500 0)
             {| influxDB := Some (influxEvery (Some (-5)));
                topgg := Some (topggEvery (Some 60000) (Some "tok")) |}).1)
     = [ {| timerSink := InfluxDB; timerInterval := 1; timerUnref := true |};
         {| timerSink := Topgg; timerInterval := 60000;
            timerUnref := true |} ]
  /\ armed InfluxDB
       (new_Metrics idleClient None (sampleOf 1000 500 0)
          {| influxDB := Some (influxEvery (Some (-5)));
             topgg := Some (topggEvery (Some 60000) (Some "tok")) |}).1
     = true.
Proof.
  assert (Hnew : new_Metrics idleClient None (sampleOf 1000 500 0)
                   {| influxDB := Some (influxEvery (Some (-5)));
                      topgg := Some (topggEvery (Some 60000) (Some "tok")) |}
                 = ((new_Metrics idleClient None (sampleOf 1000 500 0)
                       {| influxDB := Some (influxEvery (Some (-5)));
                          topgg :=
                            Some (topggEvery (Some 60000) (Some "tok")) |}).1,
                    Normal tt)) by (vm_compute; reflexivity).
  split; [exact Hnew|]. split; [vm_compute; reflexivity|].
  apply (proj1 (X2_timers_follow_intervals _ _ _ _ _ Hnew)).
  exists (Some (-5)). split; [reflexivity|done].
Defined.

(** ** What no event changes *)

(** X3: whatever events the controller handles, the options resolved by the
    constructor, the InfluxDB client, the armed timers and the registered
    listeners stay as the constructor left them: no timer is ever cleared
    or added, and reporting stays enabled or disabled for good. *)
Theorem X3_configuration_is_frozen (s : System) (es : list Event)
    (s' : System) :
  run s es = Some s' ->
  options (this s') = options (this s)
  /\ influxClient (this s') = influxClient (this s)
  /\ timers (world s') = timers (world s)
  /\ listeners (world s') = listeners (world s)
  /\ (forall k : Sink, armed k s' = armed k s).
Proof.
  intros Hrun. pose proof (run_config es s s' Hrun) as Hcfg.
  pose proof Hcfg as Hcfg'. unfold config in Hcfg'.
  injection Hcfg' as Ho Hc Ht Hl _.
  split_and!; try done. intros k. by apply armed_config.
Qed.

Lemma X3_witness :
  run influxBot (Tick InfluxDB (readingOf 3000 1500 2000)
                   :: Settle 0 (Rejected "ECONNREFUSED") :: oopsEvents)
  = Some (default influxBot
            (run influxBot (Tick InfluxDB (readingOf 3000 1500 2000)
                              :: Settle 0 (Rejected "ECONNREFUSED")
                              :: oopsEvents)))
  /\ timers (world (default influxBot
                      (run influxBot (Tick InfluxDB (readingOf 3000 1500 2000)
                                        :: Settle 0 (Rejected "ECONNREFUSED")
                                        :: oopsEvents))))
     = timers (world influxBot).
Proof.
  assert (Hrun : run influxBot (Tick InfluxDB (readingOf 3000 1500 2000)
                                  :: Settle 0 (Rejected "ECONNREFUSED")
                                  :: oopsEvents)
                 = Some (default influxBot
                           (run influxBot
                              (Tick InfluxDB (readingOf 3000 1500 2000)
                                 :: Settle 0 (Rejected "ECONNREFUSED")
                                 :: oopsEvents)))) by (vm_compute; reflexivity).
  split; [exact Hrun|].
  exact (proj1 (proj2 (proj2 (X3_configuration_is_frozen _ _ _ Hrun)))).
Defined.

(** ** Manual calls *)

(** X4: a report method called for a sink whose options are not defined
    throws "Cannot post to ...; options not defined" to its caller and does
    nothing else: no CPU sample is stored, nothing is written or requested,
    no cycle is started and nothing is printed. *)
Theorem X4_unconfigured_call_only_rejects (s : System) (k : Sink)
    (r : Reading) :
  unconfigured k s ->
  step s (Call k r)
  = Some (on_world (fun w =>
            set_propagated (propagated w ++ [(k, notDefinedMessage k)]) w) s).
Proof.
  intros Hun. simpl. unfold launch. destruct k; simpl in *.
  - by rewrite (reportInfluxDBMetrics_unconfigured r s Hun).
  - by rewrite (reportTopggMetrics_unconfigured s Hun).
Qed.

Lemma X4_witness :
  unconfigured InfluxDB silentBot
  /\ (_lastCPUMetrics
        <$> (this <$> step silentBot (Call InfluxDB (readingOf 3000 1500 2000))))
     = Some (sampleOf 1000 500 0).
Proof.
  assert (Hun : unconfigured InfluxDB silentBot) by (left; reflexivity).
  split; [exact Hun|].
  rewrite (X4_unconfigured_call_only_rejects silentBot InfluxDB
             (readingOf 3000 1500 2000) Hun).
  reflexivity.
Defined.

(** X5: when a cycle started by a manual call fails at an awaited promise,
    the rejection reaches the caller of the report method; it is not printed
    with [console.error], the cycle is removed, and the controller's fields
    and the other suspended cycles are untouched. *)
Theorem X5_manual_failure_reaches_caller (s : System) (i : nat) (c : Cycle)
    (reason : string) :
  inflight (world s) !! i = Some c ->
  cycleOrigin c = Manual ->
  exists s' : System,
    step s (Settle i (Rejected reason)) = Some s'
    /\ propagated (world s')
       = (propagated (world s) ++ [(cycleSink c, reason)])%list
    /\ console (world s') = console (world s)
    /\ logged (world s') = logged (world s)
    /\ written (world s') = written (world s)
    /\ inflight (world s') = delete i (inflight (world s))
    /\ this s' = this s.
Proof.
  intros Hc Ho. eexists. simpl. rewrite (settle_rejected i reason s c Hc).
  split; [reflexivity|]. rewrite Ho. simpl. split_and!; reflexivity.
Qed.

Lemma X5_witness :
  (inflight (world (launch InfluxDB Manual (readingOf 3000 1500 2000)
                      influxBot)) !! 0%nat
   = Some {| cycleSink := InfluxDB; cycleOrigin := Manual;
             cyclePhase := cyclePhase influxBotCycle |}
   /\ cycleOrigin {| cycleSink := InfluxDB; cycleOrigin := Manual;
                     cyclePhase := cyclePhase influxBotCycle |} = Manual)
  /\ exists s' : System,
       step (launch InfluxDB Manual (readingOf 3000 1500 2000) influxBot)
            (Settle 0 (Rejected "ECONNREFUSED")) = Some s'
       /\ propagated (world s') = [(InfluxDB, "ECONNREFUSED")]
       /\ console (world s') = [].
Proof.
  assert (Hc : inflight (world (launch InfluxDB Manual
                                  (readingOf 3000 1500 2000) influxBot))
               !! 0%nat
               = Some {| cycleSink := InfluxDB; cycleOrigin := Manual;
                         cyclePhase := cyclePhase influxBotCycle |})
    by (vm_compute; reflexivity).
  split; [by split|].
  destruct (X5_manual_failure_reaches_caller _ 0 _ "ECONNREFUSED" Hc eq_refl)
    as (s' & Hstep & Hprop & Hcon & _).
  exists s'. split_and!; [exact Hstep|exact Hprop|exact Hcon].
Defined.

(** ** The callback *)

(** X6: for a cycle suspended at the callback, the points the callback
    resolves with are appended as they are, after the points the cycle has
    built, and the batch is written only then; a callback that resolves with
    [undefined] or [null] adds no point; a callback that rejects leaves
    nothing written for the cycle, which ends there. *)
Theorem X6_callback_points_appended (s : System) (i : nat) (k : Sink)
    (o : Origin) (w : WriteApi) (built : list Point) :
  inflight (world s) !! i
  = Some {| cycleSink := k; cycleOrigin := o;
            cyclePhase := AwaitCallback w built |} ->
  (forall value : option (list Point),
      exists s' : System,
        step s (Settle i (Resolved value)) = Some s'
        /\ written (world s')
           = (written (world s)
                ++ [(w, (built ++ nullish value [])%list)])%list
        /\ inflight (world s')
           = <[i := {| cycleSink := k; cycleOrigin := o;
                       cyclePhase :=
                         AwaitClose w (built ++ nullish value [])%list |}]>
               (inflight (world s))
        /\ logged (world s') = logged (world s))
  /\ (exists s' : System,
        step s (Settle i (Resolved None)) = Some s'
        /\ written (world s') = (written (world s) ++ [(w, built)])%list)
  /\ (forall reason : string,
         exists s' : System,
           step s (Settle i (Rejected reason)) = Some s'
           /\ written (world s') = written (world s)
           /\ inflight (world s') = delete i (inflight (world s))).
Proof.
  intros Hc. split_and!.
  - intros value. eexists. simpl. unfold settle. rewrite Hc. simpl.
    split; [reflexivity|]. split_and!; reflexivity.
  - eexists. simpl. unfold settle. rewrite Hc. simpl.
    split; [reflexivity|]. simpl. by rewrite app_nil_r.
  - intros reason. eexists. simpl.
    rewrite (settle_rejected i reason s _ Hc).
    split; [reflexivity|]. destruct o; split; reflexivity.
Qed.

Lemma X6_witness :
  inflight (world callbackBot) !! 0%nat
  = Some {| cycleSink := InfluxDB; cycleOrigin := Scheduled;
            cyclePhase :=
              AwaitCallback (writeApiOf influxBotOptions)
                (builtPoints (collectStats influxBot
                                (readingOf 3000 1500 2000))) |}
  /\ exists s' : System,
       step callbackBot (Settle 0 (Resolved (Some [extraPoint]))) = Some s'
       /\ written (world s')
          = [ (writeApiOf influxBotOptions,
               (builtPoints (collectStats influxBot
                               (readingOf 3000 1500 2000))
                  ++ [extraPoint])%list) ].
Proof.
  assert (Hc : inflight (world callbackBot) !! 0%nat
               = Some {| cycleSink := InfluxDB; cycleOrigin := Scheduled;
                         cyclePhase :=
                           AwaitCallback (writeApiOf influxBotOptions)
                             (builtPoints
                                (collectStats influxBot
                                   (readingOf 3000 1500 2000))) |})
    by (vm_compute; reflexivity).
  split; [exact Hc|].
  destruct (proj1 (X6_callback_points_appended callbackBot 0 _ _ _ _ Hc)
              (Some [extraPoint])) as (s' & Hstep & Hw & _).
  exists s'. split; [exact Hstep|]. rewrite Hw. reflexivity.
Defined.

(** ** Payloads of suspended cycles *)

Lemma report_outputs (k : Sink) (r : Reading) (s s1 : System)
    (c : Completion Phase) :
  report k r s = (s1, c) ->
  written (world s1)
  = (written (world s)
       ++ match c with
          | Normal (AwaitClose w points) => [(w, points)]
          | _ => []
          end)%list
  /\ requested (world s1)
     = (requested (world s)
          ++ match c with
             | Normal (AwaitTopgg req) => [req]
             | _ => []
             end)%list.
Proof.
  destruct k; simpl.
  - destruct (optInfluxDB (options (this s))) as [i|] eqn:Hopt;
      [destruct (influxClient (this s)) as [cl|] eqn:Hcl|].
    + rewrite (reportInfluxDBMetrics_configured r s i cl Hopt Hcl).
      destruct (pointError r); [|destruct (_influxDBCallback (this s))];
        simpl; intros [= <- <-]; simpl; by rewrite ?app_nil_r.
    + rewrite reportInfluxDBMetrics_unconfigured by auto.
      intros [= <- <-]. by rewrite !app_nil_r.
    + rewrite reportInfluxDBMetrics_unconfigured by auto.
      intros [= <- <-]. by rewrite !app_nil_r.
  - destruct (optTopgg (options (this s))) as [t|] eqn:Hopt.
    + rewrite (reportTopggMetrics_configured s t Hopt).
      destruct (negb (truthy_string (topggToken t))
                && negb (truthy_string (TOPGG_TOKEN (world s))));
        intros [= <- <-]; simpl; by rewrite ?app_nil_r.
    + rewrite reportTopggMetrics_unconfigured by done.
      intros [= <- <-]. by rewrite !app_nil_r.
Qed.

Lemma transmitted_mono (s s' : System) :
  transmitted s ->
  (forall c, c ∈ inflight (world s') -> c ∈ inflight (world s)) ->
  (forall x, x ∈ written (world s) -> x ∈ written (world s')) ->
  (forall x, x ∈ requested (world s) -> x ∈ requested (world s')) ->
  transmitted s'.
Proof.
  intros Htr Hin Hw Hr c Hc. specialize (Htr c (Hin c Hc)).
  destruct (cyclePhase c); auto.
Qed.

Lemma rejected_outputs (k : Sink) (o : Origin) (reason : string) (s : System) :
  written (world (rejected k o reason s)) = written (world s)
  /\ requested (world (rejected k o reason s)) = requested (world s).
Proof. destruct o; done. Qed.

Lemma launch_transmitted (k : Sink) (o : Origin) (r : Reading) (s : System) :
  transmitted s -> transmitted (launch k o r s).
Proof.
  intros Htr. unfold launch.
  destruct (report k r s) as [s1 [ph|reason]] eqn:Hrep;
    pose proof (report_outputs _ _ _ _ _ Hrep) as (Hw & Hr);
    apply report_frame in Hrep as (_ & _ & Hin & _).
  - intros c Hc. simpl in Hc. rewrite Hin in Hc. simpl.
    apply elem_of_app in Hc as [Hc|Hc].
    + specialize (Htr c Hc). rewrite Hw, Hr.
      destruct (cyclePhase c); [done|..]; apply elem_of_app; by left.
    + apply list_elem_of_singleton in Hc as ->. simpl.
      rewrite Hw, Hr.
      destruct ph; [done|..]; apply elem_of_app; right;
        by apply list_elem_of_singleton.
  - destruct (rejected_frame k o reason s1) as (_ & _ & _ & Hin' & _).
    destruct (rejected_outputs k o reason s1) as (Hw' & Hr').
    apply (transmitted_mono s); [done|..].
    + intros c. by rewrite Hin', Hin.
    + intros x Hx. rewrite Hw', Hw. apply elem_of_app. by left.
    + intros x Hx. rewrite Hr', Hr. apply elem_of_app. by left.
Qed.

Lemma settle_transmitted (i : nat) (v : Settlement) (s s' : System) :
  transmitted s -> settle i v s = Some s' -> transmitted s'.
Proof.
  intros Htr. unfold settle.
  destruct (inflight (world s) !! i) as [c|] eqn:Hc; [|discriminate].
  destruct v as [value|reason].
  - destruct c as [k o [w built|w points|req]]; simpl;
      unfold writePoints, logger_log; eff_unfold; simpl; intros [= <-].
    + intros c' Hc'. simpl in Hc'.
      apply list_elem_of_lookup in Hc' as [j Hj].
      destruct (decide (i = j)) as [<-|Hne].
      * rewrite list_lookup_insert_eq in Hj by (by eapply lookup_lt_Some).
        injection Hj as <-. simpl. apply elem_of_app. right.
        by apply list_elem_of_singleton.
      * rewrite list_lookup_insert_ne in Hj by done.
        apply list_elem_of_lookup_2 in Hj. specialize (Htr c' Hj). simpl.
        destruct (cyclePhase c'); [done| |done].
        apply elem_of_app. by left.
    + apply (transmitted_mono s); [done| |done|done].
      intros c'. simpl. apply list_elem_of_delete_inv.
    + apply (transmitted_mono s); [done| |done|done].
      intros c'. simpl. apply list_elem_of_delete_inv.
  - simpl. intros [= <-].
    destruct (rejected_frame (cycleSink c) (cycleOrigin c) reason
                (on_world (fun w => set_inflight (delete i (inflight w)) w) s))
      as (_ & _ & _ & Hin' & _).
    destruct (rejected_outputs (cycleSink c) (cycleOrigin c) reason
                (on_world (fun w => set_inflight (delete i (inflight w)) w) s))
      as (Hw' & Hr').
    apply (transmitted_mono s); [done|..].
    + intros c'. rewrite Hin'. simpl. apply list_elem_of_delete_inv.
    + intros x. by rewrite Hw'.
    + intros x. by rewrite Hr'.
Qed.

Lemma step_transmitted (s : System) (e : Event) (s' : System) :
  transmitted s -> step s e = Some s' -> transmitted s'.
Proof.
  intros Htr.
  destruct e as [k r|k r|i v|event d|name|cb|c]; simpl.
  - destruct (armed k s); intros [= <-]. by apply launch_transmitted.
  - intros [= <-]. by apply launch_transmitted.
  - by apply settle_transmitted.
  - destruct (listening event s); intros [= <-]; [|done].
    destruct (String.eqb event "INTERACTION_CREATE"); [|done].
    unfold onInteractionCreate. eff_unfold.
    by destruct (bool_decide (type d = ApplicationCommand)
                 && bool_decide (dataId d ∈ commandIds (client (world s)))).
  - by intros [= <-].
  - by intros [= <-].
  - by intros [= <-].
Qed.

Lemma reachable_transmitted (s : System) : reachable s -> transmitted s.
Proof.
  induction 1 as [c env_token t0 o s Hnew|s e s' _ IH Hstep].
  - apply new_Metrics_returns in Hnew as (_ & _ & _ & Hnone & _).
    intros cy Hcy. rewrite Hnone in Hcy. by apply elem_of_nil in Hcy.
  - by eapply step_transmitted.
Qed.

(** X7: in every state the program can reach, a cycle that awaits
    [writeAPI.close()] has handed its batch, the very points it holds, to
    [writeAPI.writePoints], and a cycle that awaits the Top.gg request has
    handed that request to the transport: no cycle waits for a transmission
    it has not started. *)
Theorem X7_suspended_cycles_have_transmitted (s : System) (c : Cycle) :
  reachable s ->
  c ∈ inflight (world s) ->
  (forall (w : WriteApi) (points : list Point),
      cyclePhase c = AwaitClose w points -> (w, points) ∈ written (world s))
  /\ (forall req : TopggRequest,
         cyclePhase c = AwaitTopgg req -> req ∈ requested (world s)).
Proof.
  intros Hreach Hc.
  pose proof (reachable_transmitted s Hreach c Hc) as Htr.
  split.
  - intros w points Hph. by rewrite Hph in Htr.
  - intros req Hph. by rewrite Hph in Htr.
Qed.

Lemma X7_witness :
  (reachable influxBotReporting
   /\ influxBotCycle ∈ inflight (world influxBotReporting))
  /\ (writeApiOf influxBotOptions,
      builtPoints (collectStats influxBot (readingOf 3000 1500 2000)))
     ∈ written (world influxBotReporting).
Proof.
  assert (Hin : influxBotCycle ∈ inflight (world influxBotReporting)).
  { apply list_elem_of_lookup. exists 0%nat. vm_compute. reflexivity. }
  split; [split; [exact influxBotReporting_reachable|exact Hin]|].
  exact (proj1 (X7_suspended_cycles_have_transmitted influxBotReporting
                  influxBotCycle influxBotReporting_reachable Hin)
           _ _ eq_refl).
Defined.

(** ** The Top.gg request *)

(** X8: in every reachable state with the Top.gg sink configured, a call of
    [reportTopggMetrics] hands exactly one request to the transport: route
    [/bots/stats], the gateway's guild count as [server_count], the number
    of shards as [shard_count] only if [postShards] is set, and the token
    resolved by the constructor, which is not empty, as the auth header.
    The call takes no CPU sample, writes no point and leaves the tallies
    alone. *)
Theorem X8_topgg_request_contents (s : System) (o : Origin) (r : Reading)
    (t : TopggResolved) :
  reachable s ->
  optTopgg (options (this s)) = Some t ->
  let c := client (world s) in
  let req :=
    {| route := "/bots/stats";
       server_count := guildCount c;
       shard_count := if postShards t
                      then Some (Z.of_nat (length (shards c))) else None;
       authHeader := topggToken t |} in
  truthy_string (authHeader req) = true
  /\ step s (Call Topgg r) = Some (launch Topgg Manual r s)
  /\ requested (world (launch Topgg o r s))
     = (requested (world s) ++ [req])%list
  /\ inflight (world (launch Topgg o r s))
     = (inflight (world s)
          ++ [ {| cycleSink := Topgg; cycleOrigin := o;
                  cyclePhase := AwaitTopgg req |} ])%list
  /\ this (launch Topgg o r s) = this s
  /\ written (world (launch Topgg o r s)) = written (world s).
Proof.
  intros Hreach Hopt c req.
  pose proof (reachable_wellConfigured s Hreach) as (_ & _ & _ & Htok).
  specialize (Htok t Hopt).
  assert (Hreq : topggRequestOf t s = req).
  { unfold topggRequestOf, req, c. f_equal.
    destruct (topggToken t); [done|discriminate]. }
  split_and!; [exact Htok|reflexivity|..];
    unfold launch; simpl report;
    rewrite (reportTopggMetrics_configured s t Hopt), Htok; simpl;
    by rewrite ?Hreq.
Qed.

Lemma X8_witness :
  (reachable manualBot
   /\ optTopgg (options (this manualBot))
      = Some {| topggReportInterval := 0; postShards := false;
                topggToken := Some "tok" |})
  /\ requested (world (launch Topgg Manual (readingOf 3000 1500 2000)
                         manualBot))
     = [ {| route := "/bots/stats"; server_count := 0; shard_count := None;
            authHeader := Some "tok" |} ].
Proof.
  assert (Hreach : reachable manualBot).
  { eapply (reachable_new idleClient None (sampleOf 1000 500 0)
              {| influxDB := Some (influxEvery None);
                 topgg := Some (topggEvery (Some 0) (Some "tok")) |}).
    vm_compute. reflexivity. }
  assert (Hopt : optTopgg (options (this manualBot))
                 = Some {| topggReportInterval := 0; postShards := false;
                           topggToken := Some "tok" |})
    by (vm_compute; reflexivity).
  split; [by split|].
  exact (proj1 (proj2 (proj2 (X8_topgg_request_contents manualBot Manual
                                (readingOf 3000 1500 2000) _ Hreach Hopt)))).
Defined.

(** X9: [topggRequest] throws "Top.gg API token is undefined", without
    reaching the transport, exactly when its [token] argument and
    [TOPGG_TOKEN] are both absent or empty.  Otherwise it sends one request
    whose auth header is the argument whenever the argument is a string,
    and [TOPGG_TOKEN] only when it is absent: with an empty argument and a
    token in the environment the request goes out with an empty auth
    header. *)
Theorem X9_topggRequest_token_choice (path : string) (servers : Z)
    (shardsField : option Z) (token : option string) (s : System) :
  let env_token := TOPGG_TOKEN (world s) in
  let outcome := topggRequest path servers shardsField token s in
  (outcome.2 = Throw "Top.gg API token is undefined"
   <-> (token = None \/ token = Some "")
       /\ (env_token = None \/ env_token = Some ""))
  /\ (outcome.2 = Throw "Top.gg API token is undefined" -> outcome.1 = s)
  /\ (forall req : TopggRequest,
         outcome.2 = Normal req ->
         requested (world outcome.1) = (requested (world s) ++ [req])%list
         /\ route req = path /\ server_count req = servers
         /\ shard_count req = shardsField
         /\ authHeader req = match token with
                             | Some tok => Some tok
                             | None => env_token
                             end)
  /\ (token = Some "" -> truthy_string env_token = true ->
      exists req : TopggRequest,
        outcome.2 = Normal req /\ authHeader req = Some "").
Proof.
  intros env_token outcome. subst outcome env_token.
  unfold topggRequest. eff_unfold.
  pose proof (truthy_string_false token) as Htok.
  pose proof (truthy_string_false (TOPGG_TOKEN (world s))) as Henv.
  destruct (truthy_string token) eqn:Ht; simpl.
  - split_and!.
    + split; [done|]. intros [Hf _]. apply Htok in Hf. done.
    + done.
    + intros req [= <-]. simpl. done.
    + intros ->. done.
  - destruct (truthy_string (TOPGG_TOKEN (world s))) eqn:He; simpl.
    + split_and!.
      * split; [done|]. intros [_ Hf]. apply Henv in Hf. done.
      * done.
      * intros req [= <-]. simpl. done.
      * intros -> _. eexists. split; reflexivity.
    + split_and!.
      * split; [|done]. intros _. split; [by apply Htok|by apply Henv].
      * done.
      * done.
      * done.
Qed.

(** ** The write API and its tags *)

(** X10: a report cycle writes to the organisation and bucket of the
    options, with the options' extra tags as default tags; the tag
    [application] carries the application's name unless the extra tags
    define [application] themselves, in which case the extra tag wins. *)
Theorem X10_default_tags (s : System) (r : Reading) (i : InfluxDBResolved)
    (s1 : System) (ph : Phase) :
  optInfluxDB (options (this s)) = Some i ->
  reportInfluxDBMetrics r s = (s1, Normal ph) ->
  exists (w : WriteApi) (points : list Point),
    (ph = AwaitCallback w points \/ ph = AwaitClose w points)
    /\ writeOrg w = org i /\ writeBucket w = bucket i
    /\ (forall key value,
           extraTags i !! key = Some value ->
           defaultTags w !! key = Some value)
    /\ (forall key, key ≠ "application" ->
                    defaultTags w !! key = extraTags i !! key)
    /\ defaultTags w !! "application"
       = Some (default (application i) (extraTags i !! "application")).
Proof.
  intros Hopt Hrep.
  assert (Htags : forall key,
             defaultTags (writeApiOf i) !! key
             = match extraTags i !! key with
               | Some value => Some value
               | None => if decide (key = "application")
                         then Some (application i) else None
               end).
  { intros key. unfold writeApiOf, useDefaultTags. simpl.
    rewrite lookup_union.
    destruct (extraTags i !! key) as [value|] eqn:Hx; simpl.
    - by destruct ({["application" := application i]} !! key).
    - destruct (decide (key = "application")) as [->|Hne].
      + by rewrite lookup_singleton_eq.
      + by rewrite lookup_singleton_ne. }
  destruct (influxClient (this s)) as [cl|] eqn:Hcl.
  - rewrite (reportInfluxDBMetrics_configured r s i cl Hopt Hcl) in Hrep.
    destruct (pointError r); [discriminate|].
    exists (writeApiOf i), (builtPoints (collectStats s r)).
    split_and!.
    + destruct (_influxDBCallback (this s)); simpl in Hrep;
        injection Hrep as _ <-; auto.
    + reflexivity.
    + reflexivity.
    + intros key value Hx. by rewrite Htags, Hx.
    + intros key Hne. rewrite Htags.
      destruct (extraTags i !! key); [done|]. by rewrite decide_False.
    + rewrite Htags. by destruct (extraTags i !! "application").
  - rewrite reportInfluxDBMetrics_unconfigured in Hrep by auto. discriminate.
Qed.

Lemma X10_witness :
  (optInfluxDB (options (this influxBot)) = Some influxBotOptions
   /\ reportInfluxDBMetrics (readingOf 3000 1500 2000) influxBot
      = ((reportInfluxDBMetrics (readingOf 3000 1500 2000) influxBot).1,
         Normal (cyclePhase influxBotCycle)))
  /\ exists (w : WriteApi) (points : list Point),
       cyclePhase influxBotCycle = AwaitClose w points
       /\ defaultTags w !! "application" = Some "bot".
Proof.
  assert (Hopt : optInfluxDB (options (this influxBot))
                 = Some influxBotOptions) by (vm_compute; reflexivity).
  assert (Hrep : reportInfluxDBMetrics (readingOf 3000 1500 2000) influxBot
                 = ((reportInfluxDBMetrics (readingOf 3000 1500 2000)
                       influxBot).1,
                    Normal (cyclePhase influxBotCycle)))
    by (vm_compute; reflexivity).
  split; [by split|].
  destruct (X10_default_tags influxBot _ _ _ _ Hopt Hrep)
    as (w & points & [Hph|Hph] & _ & _ & _ & _ & Happ);
    [discriminate Hph|].
  exists w, points. split; [exact Hph|]. rewrite Happ. reflexivity.
Defined.

(** ** The points of a batch *)

(** X12: with no command counted, no response code tallied and no shard, a
    report still builds a batch of one point, the [process] point with 0 as
    its [shards] field, whatever the error tally holds.  Unless a [Point]
    method throws for one of its fields, the batch is written, and when
    [writeAPI.close()] resolves the cycle logs "Wrote 1 points to InfluxDB"
    and hands no rejection to anyone; when a [Point] method throws, the
    caller receives that error, nothing is written or logged and no cycle
    starts. *)
Theorem X12_empty_report (s : System) (r : Reading) (i : InfluxDBResolved)
    (cl : string * string) :
  optInfluxDB (options (this s)) = Some i ->
  influxClient (this s) = Some cl ->
  _influxDBCallback (this s) = None ->
  _commands (this s) = [] ->
  responseCodeTally (client (world s)) = [] ->
  shards (client (world s)) = [] ->
  (exists point : Point,
      builtPoints (collectStats s r) = [point]
      /\ measurement point = "process"
      /\ intField "shards" 0 ∈ fields point)
  /\ match pointError r with
     | None =>
         exists s1 s2 : System,
           step s (Call InfluxDB r) = Some s1
           /\ written (world s1)
              = (written (world s)
                   ++ [(writeApiOf i, builtPoints (collectStats s r))])%list
           /\ step s1 (Settle (length (inflight (world s))) (Resolved None))
              = Some s2
           /\ logged (world s2)
              = (logged (world s)
                   ++ [ {| logMessage := "Wrote 1 points to InfluxDB";
                           logLevel := "DEBUG";
                           logSystem := "Metrics" |} ])%list
           /\ inflight (world s2) = inflight (world s)
           /\ propagated (world s2) = propagated (world s)
           /\ console (world s2) = console (world s)
     | Some e =>
         exists s1 : System,
           step s (Call InfluxDB r) = Some s1
           /\ propagated (world s1)
              = (propagated (world s) ++ [(InfluxDB, e)])%list
           /\ written (world s1) = written (world s)
           /\ logged (world s1) = logged (world s)
           /\ inflight (world s1) = inflight (world s)
     end.
Proof.
  intros Hopt Hcl Hcb Hcmd Hrest Hshards.
  assert (Hbuilt : builtPoints (collectStats s r)
                   = [processPoint (collectStats s r)]).
  { unfold builtPoints, commandPoints, commandErrorPoints, restPoints,
      shardPoints, tallyPoints, collectStats. simpl.
    by rewrite Hcmd, Hrest, Hshards. }
  split.
  { exists (processPoint (collectStats s r)).
    split; [exact Hbuilt|]. split; [reflexivity|].
    unfold collectStats. simpl. rewrite Hshards. simpl.
    apply elem_of_cons. right. apply elem_of_cons. right.
    apply elem_of_cons. by left. }
  simpl step. unfold launch. simpl report.
  rewrite (reportInfluxDBMetrics_configured r s i cl Hopt Hcl), Hcb.
  destruct (pointError r) as [e|].
  - eexists. split; [reflexivity|]. simpl. split_and!; reflexivity.
  - simpl. rewrite Hbuilt. eexists _, _.
    split; [reflexivity|]. simpl. split; [reflexivity|].
    unfold settle. simpl.
    rewrite list_lookup_middle by done. simpl.
    unfold logger_log. eff_unfold. simpl.
    split; [reflexivity|]. simpl.
    rewrite delete_middle, app_nil_r. split_and!; reflexivity.
Qed.

Lemma X12_witness :
  (optInfluxDB (options (this influxBot)) = Some influxBotOptions
   /\ influxClient (this influxBot) = Some ("secret", "http://localhost:8086")
   /\ _influxDBCallback (this influxBot) = None
   /\ _commands (this influxBot) = []
   /\ responseCodeTally (client (world influxBot)) = []
   /\ shards (client (world influxBot)) = [])
  /\ exists s1 s2 : System,
       step influxBot (Call InfluxDB (readingOf 3000 1500 2000)) = Some s1
       /\ written (world s1)
          = [(writeApiOf influxBotOptions,
              builtPoints (collectStats influxBot (readingOf 3000 1500 2000)))]
       /\ step s1 (Settle 0 (Resolved None)) = Some s2
       /\ logged (world s2)
          = (logged (world influxBot)
               ++ [ {| logMessage := "Wrote 1 points to InfluxDB";
                       logLevel := "DEBUG"; logSystem := "Metrics" |} ])%list.
Proof.
  assert (Hopt : optInfluxDB (options (this influxBot))
                 = Some influxBotOptions) by (vm_compute; reflexivity).
  assert (Hcl : influxClient (this influxBot)
                = Some ("secret", "http://localhost:8086"))
    by (vm_compute; reflexivity).
  split; [split_and!; try done; vm_compute; reflexivity|].
  destruct (proj2 (X12_empty_report influxBot (readingOf 3000 1500 2000)
                     influxBotOptions _ Hopt Hcl eq_refl eq_refl eq_refl
                     eq_refl))
    as (s1 & s2 & Hstep & Hw & Hsettle & Hlog & _).
  exists s1, s2. split_and!; [exact Hstep|exact Hw|exact Hsettle|exact Hlog].
Defined.

(** ** Totals of the tallies *)

Lemma tallyTotal_assign (name : string) (value : Count) (tally : Tally) :
  (tallyTotal (assign name value tally) + countOf name tally
   = tallyTotal tally + match value with Num n => n | NaN => 0 end)%nat.
Proof.
  unfold countOf.
  induction tally as [|[key old] rest IH]; simpl.
  - destruct value; lia.
  - destruct (decide (key = name)) as [->|Hne]; simpl.
    + destruct value, old; lia.
    + destruct old; lia.
Qed.

(** The integer counts grow by one under an increment of a name that
    [Object.prototype] does not define, and not at all under the others. *)
Lemma tallyTotal_increment (name : string) (tally : Tally) :
  proper tally ->
  tallyTotal (increment name tally)
  = (tallyTotal tally + if inherited name then 0 else 1)%nat.
Proof.
  intros Hp. unfold increment.
  destruct (own name tally) as [[count|]|] eqn:Hown.
  - rewrite Hown.
    pose proof (tallyTotal_assign name (Num (S count)) tally) as Ht.
    unfold countOf in Ht. rewrite Hown in Ht.
    destruct (inherited name) eqn:Hinh; [|lia].
    apply (Hp name (Num count) Hown) in Hinh. discriminate.
  - rewrite Hown.
    pose proof (tallyTotal_assign name NaN tally) as Ht.
    unfold countOf in Ht. rewrite Hown in Ht.
    destruct (Hp name NaN Hown) as [Hinh _]. rewrite Hinh by done. lia.
  - destruct (inherited name) eqn:Hinh.
    + rewrite Hown. destruct (decide (name = "__proto__")); [lia|].
      pose proof (tallyTotal_assign name NaN tally) as Ht.
      unfold countOf in Ht. rewrite Hown in Ht. lia.
    + rewrite own_assign_same.
      pose proof (tallyTotal_assign name (Num 0) tally) as Ht0.
      unfold countOf in Ht0. rewrite Hown in Ht0.
      pose proof (tallyTotal_assign name (Num 1) (assign name (Num 0) tally))
        as Ht1.
      unfold countOf in Ht1. rewrite own_assign_same in Ht1. lia.
Qed.

(** An increment creates an entry for its name, unless the name is
    [__proto__], and no other. *)
Lemma increment_entry (name key : string) (tally : Tally) :
  is_Some (own key (increment name tally))
  <-> (key = name /\ name ≠ "__proto__") \/ is_Some (own key tally).
Proof.
  destruct (decide (key = name)) as [->|Hne].
  - rewrite increment_own_same.
    destruct (own name tally) as [[count|]|] eqn:Hown.
    + split; [by right|by eexists].
    + split; [by right|by eexists].
    + destruct (decide (name = "__proto__")) as [Hproto|Hproto].
      * rewrite (inherited_proto name Hproto). split; [by right|].
        intros [[_ Hne]|Hsome]; [done|exact Hsome].
      * split; [by left|]. intros _. by destruct (inherited name).
  - rewrite increment_own_other by done. split; [by right|].
    intros [[Heq _]|Hsome]; [done|exact Hsome].
Qed.

Lemma foldl_increment_total (labels : list string) :
  forall tally : Tally,
    proper tally ->
    proper (foldl (fun t l => increment l t) tally labels)
    /\ tallyTotal (foldl (fun t l => increment l t) tally labels)
       = (tallyTotal tally + ordinary labels)%nat.
Proof.
  unfold ordinary.
  induction labels as [|l labels IH]; intros tally Hp; simpl.
  - split; [done|lia].
  - destruct (IH (increment l tally) (proper_increment l tally Hp))
      as [Hp' Htotal].
    split; [done|]. rewrite Htotal, tallyTotal_increment by done.
    rewrite filter_cons.
    destruct (decide (inherited l = false)) as [Hd|Hd].
    + rewrite Hd. simpl. lia.
    + apply not_false_is_true in Hd. rewrite Hd. simpl. lia.
Qed.

Lemma foldl_increment_entry (labels : list string) :
  forall (tally : Tally) (key : string),
    is_Some (own key (foldl (fun t l => increment l t) tally labels))
    <-> (key ∈ labels /\ key ≠ "__proto__") \/ is_Some (own key tally).
Proof.
  induction labels as [|l labels IH]; intros tally key; simpl.
  - split; [by right|]. intros [[Hin _]|Hsome]; [|done].
    by apply elem_of_nil in Hin.
  - rewrite IH, increment_entry, elem_of_cons. split.
    + intros [[Hin Hne]|[[-> Hne]|Hsome]]; auto.
    + intros [[[->|Hin] Hne]|Hsome]; auto.
Qed.

(** X13: starting from an empty error tally, after any sequence of
    [incrementCommandError] calls the integer counts of the tally add up to
    the number of calls whose label [Object.prototype] does not define, and
    the tally has an entry exactly for the labels that were passed, other
    than [__proto__]; the entry is NaN exactly when [Object.prototype]
    defines the label.  No call with an ordinary label is lost and no entry
    appears from nowhere. *)
Theorem X13_tally_total_and_names (s : System) (labels : list string) :
  _commandErrors (this s) = [] ->
  tallyTotal (_commandErrors (this (afterCommandErrors s labels)))
  = ordinary labels
  /\ (forall name : string,
         is_Some (own name (_commandErrors
                              (this (afterCommandErrors s labels))))
         <-> name ∈ labels /\ name ≠ "__proto__")
  /\ (forall name : string,
         own name (_commandErrors (this (afterCommandErrors s labels)))
         = Some NaN
         <-> name ∈ labels /\ name ≠ "__proto__" /\ inherited name = true).
Proof.
  intros Hempty. rewrite afterCommandErrors_tally, Hempty.
  destruct (foldl_increment_total labels [] proper_nil) as [Hp Htotal].
  assert (Hentry : forall name : string,
             is_Some (own name (foldl (fun t l => increment l t) [] labels))
             <-> name ∈ labels /\ name ≠ "__proto__").
  { intros name. rewrite foldl_increment_entry. split; [|by left].
    intros [Hin|[c Hc]]; [done|discriminate]. }
  split_and!.
  - rewrite Htotal. simpl. lia.
  - exact Hentry.
  - intros name. split.
    + intros Hown. destruct (Hp name NaN Hown) as [Hinh _].
      destruct (proj1 (Hentry name)) as [Hin Hne]; [by eexists|].
      split_and!; auto.
    + intros (Hin & Hne & Hinh).
      destruct (proj2 (Hentry name)) as [c Hc]; [done|].
      rewrite Hc. f_equal. by apply (Hp name c Hc).
Qed.

Lemma X13_witness :
  _commandErrors (this influxBot) = []
  /\ tallyTotal
       (_commandErrors
          (this (afterCommandErrors influxBot
                   ["ping"; "constructor"; "help"; "ping"])))
     = 3%nat.
Proof.
  assert (Hempty : _commandErrors (this influxBot) = [])
    by (vm_compute; reflexivity).
  split; [exact Hempty|].
  exact (proj1 (X13_tally_total_and_names influxBot
                  ["ping"; "constructor"; "help"; "ping"] Hempty)).
Defined.

(** ** The error callback *)

Lemma errorCallback_effect (ctx : ErrorContext) (error : JsError)
    (unexpected : bool) (errorId : string) (s : System) :
  let s' := (errorCallback ctx error unexpected errorId s).1 in
  _commands (this s') = _commands (this s)
  /\ _commandErrors (this s')
     = (if ctxIsCommand ctx
        then increment (nullish (ctxCommandName ctx) "Unknown")
               (_commandErrors (this s))
        else _commandErrors (this s))
  /\ length (logged (world s')) = S (length (logged (world s)))
  /\ console (world s')
     = (console (world s)
          ++ if unexpected then [errStack error] else [])%list
  /\ config s' = config s
  /\ inflight (world s') = inflight (world s).
Proof.
  unfold errorCallback, incrementCommandError, handler_log, console_error.
  eff_unfold.
  destruct (ctxIsCommand ctx), unexpected; simpl;
    rewrite ?length_app, ?app_nil_r; simpl; split_and!; try done; lia.
Qed.

Lemma afterErrorCallbacks_tally (calls : list ErrorCall) :
  forall s : System,
    _commandErrors (this (afterErrorCallbacks s calls))
    = foldl (fun t l => increment l t) (_commandErrors (this s))
        (errorLabels calls).
Proof.
  unfold afterErrorCallbacks, errorLabels, errorLabel.
  induction calls as [|call calls IH]; intros s; simpl; [done|].
  rewrite IH.
  destruct (errorCallback_effect (callCtx call) (callError call)
              (callUnexpected call) (callErrorId call) s)
    as (_ & -> & _).
  rewrite filter_cons.
  destruct (decide (ctxIsCommand (callCtx call) = true)) as [Hd|Hd].
  - by rewrite Hd.
  - apply not_true_is_false in Hd. by rewrite Hd.
Qed.

(** X14: over any sequence of runs of the command handler's error callback,
    the error tally undergoes one increment for each error raised in a chat
    or context menu command context, under the command's name or, without a
    command, under "Unknown"; errors of other contexts are logged but never
    counted.  With integer counts for ordinary names to start with, the
    integer counts grow by exactly the number of such errors whose label
    [Object.prototype] does not define, and the entries of the tally are
    those it had and those of the labels counted, [__proto__] excepted.
    Each run logs one entry, only unexpected errors are printed with
    [console.error], in order, and the invocation tally is never touched. *)
Theorem X14_error_callback_counts_command_errors (s : System)
    (calls : list ErrorCall) :
  proper (_commandErrors (this s)) ->
  let s' := afterErrorCallbacks s calls in
  _commandErrors (this s')
  = foldl (fun t l => increment l t) (_commandErrors (this s))
      (errorLabels calls)
  /\ tallyTotal (_commandErrors (this s'))
     = (tallyTotal (_commandErrors (this s))
        + ordinary (errorLabels calls))%nat
  /\ (forall name : string,
         is_Some (own name (_commandErrors (this s')))
         <-> (name ∈ errorLabels calls /\ name ≠ "__proto__")
             \/ is_Some (own name (_commandErrors (this s))))
  /\ _commands (this s') = _commands (this s)
  /\ length (logged (world s'))
     = (length (logged (world s)) + length calls)%nat
  /\ console (world s')
     = (console (world s)
          ++ map (fun call => errStack (callError call))
               (filter (fun call => callUnexpected call = true) calls))%list.
Proof.
  intros Hp s'. subst s'.
  rewrite afterErrorCallbacks_tally.
  destruct (foldl_increment_total (errorLabels calls)
              (_commandErrors (this s)) Hp) as [_ Htotal].
  split; [done|]. split; [done|].
  split; [intros name; apply foldl_increment_entry|].
  clear Hp Htotal. unfold afterErrorCallbacks. revert s.
  induction calls as [|call calls IH]; intros s; simpl.
  - rewrite app_nil_r. split_and!; try done; lia.
  - destruct (IH (errorCallback (callCtx call) (callError call)
                    (callUnexpected call) (callErrorId call) s).1)
      as (Hc & Hl & Hcon).
    destruct (errorCallback_effect (callCtx call) (callError call)
                (callUnexpected call) (callErrorId call) s)
      as (Hc1 & _ & Hl1 & Hcon1 & _).
    rewrite Hc, Hl, Hcon, Hc1, Hl1, Hcon1.
    rewrite !filter_cons.
    destruct (callUnexpected call) eqn:Hun; simpl;
      rewrite ?decide_True by done; rewrite ?decide_False by done; simpl;
      rewrite ?app_nil_r, <- ?app_assoc;
      simpl; split_and!; try done; lia.
Qed.

Lemma X14_witness :
  proper (_commandErrors (this influxBot))
  /\ tallyTotal
       (_commandErrors
          (this (afterErrorCallbacks influxBot
                   [ {| callCtx := {| ctxIsCommand := true;
                                      ctxCommandName := Some "ping";
                                      ctxInteractionId := "1" |};
                        callError := {| errName := "Error";
                                        errMessage := "boom";
                                        errStack := "Error: boom" |};
                        callUnexpected := true; callErrorId := "a1" |};
                     {| callCtx := {| ctxIsCommand := true;
                                      ctxCommandName := None;
                                      ctxInteractionId := "2" |};
                        callError := {| errName := "Error";
                                        errMessage := "late";
                                        errStack := "Error: late" |};
                        callUnexpected := false; callErrorId := "a2" |};
                     {| callCtx := {| ctxIsCommand := false;
                                      ctxCommandName := None;
                                      ctxInteractionId := "3" |};
                        callError := {| errName := "Error";
                                        errMessage := "modal";
                                        errStack := "Error: modal" |};
                        callUnexpected := false; callErrorId := "a3" |} ])))
     = 2%nat.
Proof.
  assert (Hp : proper (_commandErrors (this influxBot)))
    by exact proper_nil.
  split; [exact Hp|].
  exact (proj1 (proj2 (X14_error_callback_counts_command_errors influxBot
                         _ Hp))).
Defined.

(** ** The Top.gg report of the build under [dist/] *)

(** X15: in the build under [dist/], [reportTopggMetrics] of a configured
    Top.gg sink checks the application id before it builds the request:
    without an id (absent or empty) it throws "Cannot post to Top.gg:
    application ID is undefined (client.gateway.user.id)" and nothing
    reaches the transport, whatever token is configured; with an id and a
    token it sends exactly one request, to [/bots/<id>/stats]. *)
Theorem X15_dist_topgg_needs_application_id (s : System)
    (userId : option string) (t : TopggResolved) :
  optTopgg (options (this s)) = Some t ->
  (truthy_string userId = false ->
   DistTopgg.reportTopggMetrics userId s
   = (s, Throw ("Cannot post to Top.gg: application ID is undefined "
                  ++ "(client.gateway.user.id)")))
  /\ (forall appId : string,
         userId = Some appId -> appId ≠ "" ->
         truthy_string (topggToken t) = true ->
         exists (s' : System) (req : TopggRequest),
           DistTopgg.reportTopggMetrics userId s = (s', Normal (AwaitTopgg req))
           /\ route req = "/bots/" ++ appId ++ "/stats"
           /\ authHeader req = topggToken t
           /\ requested (world s') = (requested (world s) ++ [req])%list
           /\ this s' = this s).
Proof.
  intros Hopt. unfold DistTopgg.reportTopggMetrics, topggRequest. eff_unfold.
  rewrite Hopt. split.
  - intros ->. reflexivity.
  - intros appId -> Hne Htok.
    assert (Hid : truthy_string (Some appId) = true).
    { destruct (truthy_string (Some appId)) eqn:Hf; [done|].
      apply truthy_string_false in Hf as [|[= ->]]; done. }
    rewrite Hid, Htok. simpl. eexists _, _. split; [reflexivity|]. simpl.
    split_and!; try reflexivity.
    destruct (topggToken t); [done|discriminate].
Qed.

Lemma X15_witness :
  optTopgg (options (this manualBot))
  = Some {| topggReportInterval := 0; postShards := false;
            topggToken := Some "tok" |}
  /\ (DistTopgg.reportTopggMetrics None manualBot).2
     = Throw ("Cannot post to Top.gg: application ID is undefined "
                ++ "(client.gateway.user.id)")
  /\ requested (world (DistTopgg.reportTopggMetrics None manualBot).1) = [].
Proof.
  assert (Hopt : optTopgg (options (this manualBot))
                 = Some {| topggReportInterval := 0; postShards := false;
                           topggToken := Some "tok" |})
    by (vm_compute; reflexivity).
  split; [exact Hopt|].
  rewrite (proj1 (X15_dist_topgg_needs_application_id manualBot None _ Hopt)
             eq_refl).
  split; reflexivity.
Defined.

(** ** The CPU baseline across cycles *)

Lemma step_keeps_sample (s : System) (e : Event) (s' : System) :
  callsInfluxReport e = false ->
  step s e = Some s' ->
  _lastCPUMetrics (this s') = _lastCPUMetrics (this s).
Proof.
  destruct e as [[|] r|[|] r|i v|event d|name|cb|c]; simpl; try discriminate;
    intros _.
  - destruct (armed Topgg s); intros [= <-]. unfold launch. simpl report.
    destruct (optTopgg (options (this s))) as [t|] eqn:Hopt.
    + rewrite (reportTopggMetrics_configured s t Hopt).
      destruct (negb (truthy_string (topggToken t))
                && negb (truthy_string (TOPGG_TOKEN (world s)))); done.
    + by rewrite (reportTopggMetrics_unconfigured s Hopt).
  - intros [= <-]. unfold launch. simpl report.
    destruct (optTopgg (options (this s))) as [t|] eqn:Hopt.
    + rewrite (reportTopggMetrics_configured s t Hopt).
      destruct (negb (truthy_string (topggToken t))
                && negb (truthy_string (TOPGG_TOKEN (world s)))); done.
    + by rewrite (reportTopggMetrics_unconfigured s Hopt).
  - intros Hs. apply settle_frame in Hs as [Hthis _]. by rewrite Hthis.
  - destruct (listening event s); intros [= <-]; [|done].
    destruct (String.eqb event "INTERACTION_CREATE"); [|done].
    unfold onInteractionCreate. eff_unfold.
    by destruct (bool_decide (type d = ApplicationCommand)
                 && bool_decide (dataId d ∈ commandIds (client (world s)))).
  - by intros [= <-].
  - by intros [= <-].
  - by intros [= <-].
Qed.

Lemma run_keeps_sample (es : list Event) :
  forall s s' : System,
    forallb (fun e => negb (callsInfluxReport e)) es = true ->
    run s es = Some s' ->
    _lastCPUMetrics (this s') = _lastCPUMetrics (this s).
Proof.
  induction es as [|e es IH]; intros s s'; simpl.
  - by intros _ [= <-].
  - intros [He Hes]%andb_true_iff.
    destruct (step s e) as [s1|] eqn:Hstep; [|discriminate].
    intros Hrun. rewrite (IH _ _ Hes Hrun).
    apply (step_keeps_sample s e s1); [by apply negb_true_iff|done].
Qed.

(** X16: the CPU figure of a report cycle is measured against the sample of
    the previous call of [reportInfluxDBMetrics], scheduled or manual,
    whether that call went on to fail or is still suspended, and whatever
    other events (Top.gg cycles, settlements, dispatches, command errors)
    came in between: none of them touches the retained sample. *)
Theorem X16_cpu_measured_from_previous_call (s : System) (o : Origin)
    (r1 r2 : Reading) (es : list Event) (s' : System)
    (i : InfluxDBResolved) (cl : string * string) :
  optInfluxDB (options (this s)) = Some i ->
  influxClient (this s) = Some cl ->
  forallb (fun e => negb (callsInfluxReport e)) es = true ->
  run (launch InfluxDB o r1 s) es = Some s' ->
  pointError r2 = None ->
  exists (s2 : System) (ph : Phase),
    reportInfluxDBMetrics r2 s' = (s2, Normal ph)
    /\ (head (phasePoints ph) ≫= floatFieldOf "cpu")
       = Some (cpuPercent {| usage := cpuUsage r1; time := now r1 |}
                          {| usage := cpuUsage r2; time := now r2 |}).
Proof.
  intros Hopt Hcl Hes Hrun Hpe.
  assert (Hlast : _lastCPUMetrics (this s')
                  = {| usage := cpuUsage r1; time := now r1 |}).
  { rewrite (run_keeps_sample es _ _ Hes Hrun).
    unfold launch. simpl report.
    rewrite (reportInfluxDBMetrics_configured r1 s i cl Hopt Hcl).
    destruct (pointError r1); [|destruct (_influxDBCallback (this s))];
      by destruct o. }
  pose proof (run_config es _ _ Hrun) as Hcfg.
  destruct (launch_frame InfluxDB o r1 s) as [Hcfg1 _].
  rewrite Hcfg1 in Hcfg. unfold config in Hcfg.
  injection Hcfg as Ho Hc _ _ _.
  rewrite <- Ho in Hopt. rewrite <- Hc in Hcl.
  assert (Hcpu : (head (builtPoints (collectStats s' r2))
                    ≫= floatFieldOf "cpu")
                 = Some (cpuPercent (_lastCPUMetrics (this s'))
                           {| usage := cpuUsage r2; time := now r2 |}))
    by reflexivity.
  rewrite Hlast in Hcpu.
  rewrite (reportInfluxDBMetrics_configured r2 s' i cl Hopt Hcl), Hpe.
  destruct (_influxDBCallback (this s')); eexists _, _;
    (split; [reflexivity|]); exact Hcpu.
Qed.

Lemma X16_witness :
  (optInfluxDB (options (this influxBot)) = Some influxBotOptions
   /\ influxClient (this influxBot) = Some ("secret", "http://localhost:8086")
   /\ run (launch InfluxDB Scheduled (readingOf 3000 1500 2000) influxBot)
          (Settle 0 (Rejected "ECONNREFUSED") :: oopsEvents)
      = Some (default influxBot
                (run (launch InfluxDB Scheduled (readingOf 3000 1500 2000)
                        influxBot)
                     (Settle 0 (Rejected "ECONNREFUSED") :: oopsEvents))))
  /\ (exists (s2 : System) (ph : Phase),
         reportInfluxDBMetrics (readingOf 6000 2500 4000)
           (default influxBot
              (run (launch InfluxDB Scheduled (readingOf 3000 1500 2000)
                      influxBot)
                   (Settle 0 (Rejected "ECONNREFUSED") :: oopsEvents)))
         = (s2, Normal ph)
         /\ (head (phasePoints ph) ≫= floatFieldOf "cpu") = Some double_0_2)
  /\ cpuPercent (_lastCPUMetrics (this influxBot))
       (sampleOf 3000 1500 2000) = double_0_15
  /\ cpuPercent (_lastCPUMetrics (this influxBot))
       (sampleOf 6000 2500 4000) ≠ double_0_2.
Proof.
  assert (Hopt : optInfluxDB (options (this influxBot))
                 = Some influxBotOptions) by (vm_compute; reflexivity).
  assert (Hcl : influxClient (this influxBot)
                = Some ("secret", "http://localhost:8086"))
    by (vm_compute; reflexivity).
  assert (Hrun : run (launch InfluxDB Scheduled (readingOf 3000 1500 2000)
                        influxBot)
                     (Settle 0 (Rejected "ECONNREFUSED") :: oopsEvents)
                 = Some (default influxBot
                           (run (launch InfluxDB Scheduled
                                   (readingOf 3000 1500 2000) influxBot)
                                (Settle 0 (Rejected "ECONNREFUSED")
                                   :: oopsEvents))))
    by (vm_compute; reflexivity).
  split; [split_and!; [exact Hopt|exact Hcl|exact Hrun]|].
  split; [|split; [vm_compute; reflexivity|vm_compute; discriminate]].
  destruct (X16_cpu_measured_from_previous_call influxBot Scheduled
              (readingOf 3000 1500 2000) (readingOf 6000 2500 4000)
              (Settle 0 (Rejected "ECONNREFUSED") :: oopsEvents) _ _ _
              Hopt Hcl eq_refl Hrun eq_refl) as (s2 & ph & Hrep & Hcpu).
  exists s2, ph. split; [exact Hrep|]. rewrite Hcpu. vm_compute. reflexivity.
Defined.

(** ** Two samples in the same millisecond *)

Lemma num_sub_diag (x : number) :
  (exists sign : bool, num_sub x x = S754_zero sign) \/ num_sub x x = S754_nan.
Proof.
  destruct x as [sign|sign| |sign m e]; simpl.
  - left. destruct sign; eauto.
  - right. by destruct sign.
  - by right.
  - left. exists false. unfold num_sub, SFsub.
    rewrite Z.sub_diag. reflexivity.
Qed.

(** X17: when the fresh sample carries the same timestamp as the retained
    one (two calls within one millisecond), the CPU figure is never a finite
    number: the division is by zero and yields an infinity or NaN. *)
Theorem X17_same_timestamp_not_finite (last current : CPUMetrics) :
  time current = time last ->
  isFinite (cpuPercent last current) = false.
Proof.
  intros Htime. unfold cpuPercent. rewrite Htime.
  match goal with |- context [num_div ?n _] => generalize n end.
  intros numerator.
  destruct (num_sub_diag (time last)) as [[sign ->]| ->].
  - assert (Hden : exists sign' : bool,
               num_mul (S754_zero sign) (num_of_Z 1000) = S754_zero sign')
      by (eexists; reflexivity).
    destruct Hden as [sign' ->].
    destruct numerator; reflexivity.
  - assert (Hden : num_mul S754_nan (num_of_Z 1000) = S754_nan)
      by reflexivity.
    rewrite Hden. destruct numerator; reflexivity.
Qed.

Lemma X17_witness :
  time (sampleOf 3000 1500 0) = time (sampleOf 1000 500 0)
  /\ isFinite (cpuPercent (sampleOf 1000 500 0) (sampleOf 3000 1500 0))
     = false.
Proof.
  assert (Htime : time (sampleOf 3000 1500 0) = time (sampleOf 1000 500 0))
    by reflexivity.
  split; [exact Htime|].
  exact (X17_same_timestamp_not_finite (sampleOf 1000 500 0)
           (sampleOf 3000 1500 0) Htime).
Defined.

(** ** Accounting over a whole run *)

Lemma step_proper (s : System) (e : Event) (s' : System) :
  step s e = Some s' ->
  proper (_commands (this s)) /\ proper (_commandErrors (this s)) ->
  proper (_commands (this s')) /\ proper (_commandErrors (this s')).
Proof.
  intros Hstep [Hc He].
  destruct (step_tallies s e s' Hstep) as [Heq|[[n Heq]|[n Heq]]];
    unfold tallies in Heq; injection Heq as -> ->;
    split; try done; by apply proper_increment.
Qed.

Lemma step_totals (s : System) (e : Event) (s' : System) :
  proper (_commands (this s)) ->
  proper (_commandErrors (this s)) ->
  step s e = Some s' ->
  tallyTotal (_commandErrors (this s'))
  = (tallyTotal (_commandErrors (this s))
     + if isCommandError e then 1 else 0)%nat
  /\ (tallyTotal (_commands (this s'))
      <= tallyTotal (_commands (this s))
         + if isCommandInteraction e then 1 else 0)%nat
  /\ (tallyTotal (_commands (this s)) <= tallyTotal (_commands (this s')))%nat.
Proof.
  intros Hpc Hpe.
  destruct e as [k r|k r|i v|event d|name|cb|c]; simpl.
  - destruct (armed k s); intros [= <-].
    destruct (launch_frame k Scheduled r s) as [_ Ht].
    unfold tallies in Ht. injection Ht as -> ->. lia.
  - intros [= <-].
    destruct (launch_frame k Manual r s) as [_ Ht].
    unfold tallies in Ht. injection Ht as -> ->. lia.
  - intros Hs. apply settle_frame in Hs as [-> _]. lia.
  - destruct (listening event s); intros [= <-]; [|lia].
    destruct (String.eqb event "INTERACTION_CREATE"); simpl; [|lia].
    unfold onInteractionCreate. eff_unfold.
    destruct (bool_decide (type d = ApplicationCommand)); simpl; [|lia].
    destruct (bool_decide (dataId d ∈ commandIds (client (world s))));
      simpl; [|destruct (inherited (dataName d)); simpl; lia].
    rewrite tallyTotal_increment by done.
    destruct (inherited (dataName d)); simpl; lia.
  - intros [= <-]. simpl. rewrite tallyTotal_increment by done.
    unfold errorLabel. destruct (inherited (nullish name "Unknown")); simpl;
      lia.
  - intros [= <-]. simpl. lia.
  - intros [= <-]. simpl. lia.
Qed.

(** X18: over any run of events that starts with integer counts under the
    ordinary names (as every run of a constructed controller does), the
    integer counts of the error tally grow by exactly the number of command
    errors reported under a name that [Object.prototype] does not define,
    and those of the invocation tally never shrink and grow by at most the
    number of application command interactions dispatched under such a
    name: report cycles, their settlements and every other event leave
    both totals alone. *)
Theorem X18_totals_follow_events (es : list Event) (s s' : System) :
  proper (_commands (this s)) ->
  proper (_commandErrors (this s)) ->
  run s es = Some s' ->
  tallyTotal (_commandErrors (this s'))
  = (tallyTotal (_commandErrors (this s))
     + length (filter (fun e => isCommandError e = true) es))%nat
  /\ (tallyTotal (_commands (this s)) <= tallyTotal (_commands (this s')))%nat
  /\ (tallyTotal (_commands (this s'))
      <= tallyTotal (_commands (this s))
         + length (filter (fun e => isCommandInteraction e = true) es))%nat.
Proof.
  revert s. induction es as [|e es IH]; intros s Hpc Hpe; simpl.
  - intros [= <-]. lia.
  - destruct (step s e) as [s1|] eqn:Hstep; [|discriminate].
    intros Hrun.
    destruct (step_proper s e s1 Hstep (conj Hpc Hpe)) as [Hpc1 Hpe1].
    destruct (IH s1 Hpc1 Hpe1 Hrun) as (He & Hlo & Hhi).
    destruct (step_totals s e s1 Hpc Hpe Hstep) as (He1 & Hhi1 & Hlo1).
    rewrite !filter_cons.
    destruct (isCommandError e), (isCommandInteraction e); simpl;
      rewrite ?decide_True by done; rewrite ?decide_False by done; simpl;
      lia.
Qed.

Lemma X18_witness :
  (proper (_commands (this influxBot))
   /\ proper (_commandErrors (this influxBot))
   /\ run influxBot
        (Tick InfluxDB (readingOf 3000 1500 2000)
           :: CommandError (Some "constructor") :: oopsEvents)
      = Some (default influxBot
                (run influxBot
                   (Tick InfluxDB (readingOf 3000 1500 2000)
                      :: CommandError (Some "constructor") :: oopsEvents))))
  /\ tallyTotal
       (_commandErrors
          (this (default influxBot
                   (run influxBot
                      (Tick InfluxDB (readingOf 3000 1500 2000)
                         :: CommandError (Some "constructor")
                         :: oopsEvents)))))
     = 1%nat.
Proof.
  assert (Hrun : run influxBot
                   (Tick InfluxDB (readingOf 3000 1500 2000)
                      :: CommandError (Some "constructor") :: oopsEvents)
                 = Some (default influxBot
                           (run influxBot
                              (Tick InfluxDB (readingOf 3000 1500 2000)
                                 :: CommandError (Some "constructor")
                                 :: oopsEvents))))
    by (vm_compute; reflexivity).
  assert (Hpc : proper (_commands (this influxBot))) by exact proper_nil.
  assert (Hpe : proper (_commandErrors (this influxBot)))
    by exact proper_nil.
  split; [split_and!; [exact Hpc|exact Hpe|exact Hrun]|].
  exact (proj1 (X18_totals_follow_events _ influxBot _ Hpc Hpe Hrun)).
Defined.

(** ** The end of an InfluxDB cycle *)

(** X19: in every reachable state, when [writeAPI.close()] resolves for a
    suspended cycle, the cycle logs "Wrote N points to InfluxDB" at debug
    level, N being the number of points of the batch it handed to
    [writePoints], and is removed; closing writes nothing further, prints
    nothing and rejects nothing. *)
Theorem X19_close_logs_written_count (s : System) (i : nat) (k : Sink)
    (o : Origin) (w : WriteApi) (points : list Point)
    (value : option (list Point)) :
  reachable s ->
  inflight (world s) !! i
  = Some {| cycleSink := k; cycleOrigin := o;
            cyclePhase := AwaitClose w points |} ->
  (w, points) ∈ written (world s)
  /\ exists s' : System,
       step s (Settle i (Resolved value)) = Some s'
       /\ logged (world s')
          = (logged (world s)
               ++ [ {| logMessage := "Wrote " ++ pretty (length points)
                                       ++ " points to InfluxDB";
                       logLevel := "DEBUG"; logSystem := "Metrics" |} ])%list
       /\ written (world s') = written (world s)
       /\ inflight (world s') = delete i (inflight (world s))
       /\ console (world s') = console (world s)
       /\ propagated (world s') = propagated (world s)
       /\ this s' = this s.
Proof.
  intros Hreach Hc. split.
  - apply (reachable_transmitted s Hreach
             {| cycleSink := k; cycleOrigin := o;
                cyclePhase := AwaitClose w points |}).
    eapply list_elem_of_lookup_2, Hc.
  - eexists. simpl. unfold settle. rewrite Hc. simpl.
    unfold logger_log. eff_unfold. simpl.
    split; [reflexivity|]. split_and!; reflexivity.
Qed.

Lemma X19_witness :
  (reachable influxBotReporting
   /\ inflight (world influxBotReporting) !! 0%nat = Some influxBotCycle)
  /\ exists s' : System,
       step influxBotReporting (Settle 0 (Resolved None)) = Some s'
       /\ (logMessage <$> last (logged (world s')))
          = Some "Wrote 1 points to InfluxDB"
       /\ inflight (world s') = [].
Proof.
  assert (Hc : inflight (world influxBotReporting) !! 0%nat
               = Some influxBotCycle) by (vm_compute; reflexivity).
  split; [split; [exact influxBotReporting_reachable|exact Hc]|].
  destruct (proj2 (X19_close_logs_written_count influxBotReporting 0 _ _ _ _
                     None influxBotReporting_reachable Hc))
    as (s' & Hstep & Hlog & _ & Hin & _).
  exists s'. split_and!; [exact Hstep| |].
  - rewrite Hlog. vm_compute. reflexivity.
  - rewrite Hin. vm_compute. reflexivity.
Defined.
